(** * Voice-to-text plugin: reply decision service and message pipeline

    A shallow embedding of [services/probabilistic_reply_service.py] and of
    the voice pipeline of [main.py], followed by the properties established
    about them.

    Python floats are IEEE binary64 numbers and are modelled by Rocq's
    primitive floats; dictionaries are finite maps; every call to a
    collaborator outside the two files (speech-to-text, conversation
    manager, permission service, clock, random source) takes its answer
    from an explicit environment. *)

From Stdlib Require Import ZArith List Floats Lia Bool.
From stdpp Require Import base option list gmap strings.

Set Warnings "-inexact-float,-register-all".

(** ** Python values, builtins and exceptions *)

Module Py.

(** The exception classes that occur, all below [Exception]. *)
Inductive exn : Type :=
  | AttributeError
  | TypeError
  | ValueError
  | OverflowError
  | VoiceToTextError
  | STTProviderError
  | OtherException (what : string).

(** Outcome of a call that may raise. *)
Inductive result (A : Type) : Type :=
  | Ok (a : A)
  | Raise (e : exn).
Arguments Ok {A} a.
Arguments Raise {A} e.

(** The values a configuration dictionary can hold. *)
Inductive pyval : Type :=
  | VNone
  | VBool (b : bool)
  | VInt (n : Z)
  | VFloat (f : float)
  | VStr (s : string)
  | VList (l : list pyval)
  | VDict (d : gmap string pyval).

(** Truth value of [if v:]. *)
Definition truthy (v : pyval) : bool :=
  match v with
  | VNone => false
  | VBool b => b
  | VInt n => negb (n =? 0)%Z
  | VFloat f => negb (f =? 0)%float
  | VStr s => negb (String.eqb s "")
  | VList l => match l with [] => false | _ => true end
  | VDict d => negb (Nat.eqb (size d) 0)
  end.

(** [v is False]. *)
Definition is_False (v : pyval) : bool :=
  match v with
  | VBool false => true
  | _ => false
  end.

(** Truth value of a [str]-or-[None] result. *)
Definition truthy_str (o : option string) : bool :=
  match o with
  | Some s => negb (String.eqb s "")
  | None => false
  end.

(** [min(a, b)] and [max(a, b)] on floats: the first argument is kept
    unless the second compares strictly below (above) it. *)
Definition py_min (a b : float) : float := if (b <? a)%float then b else a.
Definition py_max (a b : float) : float := if (a <? b)%float then b else a.

(** [float(n)] for an [int]: nearest binary64, ties to even;
    [OverflowError] beyond the largest finite float. *)
Definition float_of_int (n : Z) : result float :=
  let f := SF2Prim (binary_normalize prec emax n 0 false) in
  if PrimFloat.is_infinity f then Raise OverflowError else Ok f.

(** [float(v)].  Parsing of a [str] argument is the builtin's own business
    and is taken as the parameter [float_of_str]. *)
Definition py_float (float_of_str : string -> result float) (v : pyval)
  : result float :=
  match v with
  | VNone => Raise TypeError
  | VBool b => Ok (if b then 1 else 0)%float
  | VInt n => float_of_int n
  | VFloat f => Ok f
  | VStr s => float_of_str s
  | VList _ => Raise TypeError
  | VDict _ => Raise TypeError
  end.

(** [f > n] for a float [f] and an [int] [n]: Python compares the two
    exactly, without rounding [n] to a float. *)
Definition float_gt_int (f : float) (n : Z) : bool :=
  match Prim2SF f with
  | S754_nan => false
  | S754_infinity s => negb s
  | S754_zero _ => (n <? 0)%Z
  | S754_finite s m e =>
      let v := if s then Z.neg m else Z.pos m in
      if (0 <=? e)%Z then (n <? v * 2 ^ e)%Z else (n * 2 ^ (- e) <? v)%Z
  end.

End Py.

(** ** services/probabilistic_reply_service.py *)

Module ProbabilisticReplyService.
Import Py.

(** Attributes of a [ProbabilisticReplyService] object. *)
Record service : Type := mk_service {
  config : gmap string pyval;
  enabled : pyval;
  reply_probability : float;
  _last_decision_time : gmap string float
}.

Definition set_enabled (self : service) (v : pyval) : service :=
  mk_service (config self) v (reply_probability self)
    (_last_decision_time self).
Definition set_reply_probability (self : service) (p : float) : service :=
  mk_service (config self) (enabled self) p (_last_decision_time self).
Definition set_config (self : service) (c : gmap string pyval) : service :=
  mk_service c (enabled self) (reply_probability self)
    (_last_decision_time self).
Definition set_last_decision_time (self : service) (m : gmap string float)
  : service :=
  mk_service (config self) (enabled self) (reply_probability self) m.

(** The one log record whose content matters below: the debug line of the
    sweep, which carries the number of removed sessions.  Other logger
    calls change nothing and are left out. *)
Inductive log_record : Type :=
  | DebugCleaned (count : nat).

Section Builtins.
Variable float_of_str : string -> result float.

(** [_load_config]: reads the [Chat_Reply] section.  An exception leaves
    the attributes assigned so far in place. *)
Definition _load_config (self : service) : result unit * service :=
  match default (VDict ∅) (config self !! "Chat_Reply") with
  | VDict chat_reply_config =>
      let self1 :=
        set_enabled self
          (default (VBool false)
             (chat_reply_config !! "Enable_Probabilistic_Reply")) in
      match py_float float_of_str
              (default (VFloat 0.3)
                 (chat_reply_config !! "Reply_Probability")) with
      | Raise e => (Raise e, self1)
      | Ok p =>
          let self2 := set_reply_probability self1 p in
          (Ok tt,
           set_reply_probability self2
             (py_max 0 (py_min 1 (reply_probability self2))))
      end
  | _ => (Raise AttributeError, self)
  end.

(** [__init__].  [enabled] and [reply_probability] do not exist before
    [_load_config] assigns them; the placeholders standing for them here
    are overwritten on success and the object is dropped on failure. *)
Definition __init__ (config : gmap string pyval) : result service :=
  match _load_config (mk_service config VNone 0 ∅) with
  | (Ok _, self) => Ok self
  | (Raise e, _) => Raise e
  end.

(** [update_config]. *)
Definition update_config (self : service) (new_config : gmap string pyval)
  : result unit * service :=
  _load_config (set_config self new_config).

End Builtins.

(** [should_generate_reply].  [random_value] is what [random.random()]
    returns and [now] what [time.time()] returns, should they be called. *)
Definition should_generate_reply (self : service)
    (session_id : option string) (random_value now : float)
  : bool * service :=
  if negb (truthy (enabled self)) then (true, self)
  else
    let should_reply := (random_value <=? reply_probability self)%float in
    let self' :=
      match session_id with
      | Some sid =>
          if truthy_str session_id
          then set_last_decision_time self
                 (<[sid := now]> (_last_decision_time self))
          else self
      | None => self
      end in
    (should_reply, self').

(** The loop that collects [sessions_to_remove]. *)
Definition sessions_to_remove (store : gmap string float)
    (current_time : float) (max_age_seconds : Z) : list string :=
  map fst
    (List.filter
       (fun kv => float_gt_int (current_time - snd kv)%float max_age_seconds)
       (map_to_list store)).

(** [cleanup_old_sessions]: returns [None]; [current_time] is the clock
    reading. *)
Definition cleanup_old_sessions (self : service) (max_age_seconds : Z)
    (current_time : float) : pyval * service * list log_record :=
  let to_remove :=
    sessions_to_remove (_last_decision_time self) current_time
      max_age_seconds in
  let store' :=
    foldl (fun m sid => delete sid m) (_last_decision_time self) to_remove in
  (VNone,
   set_last_decision_time self store',
   match to_remove with
   | [] => []
   | _ => [DebugCleaned (length to_remove)]
   end).

(** The default of [max_age_seconds]. *)
Definition default_max_age : Z := 3600.

(** The dictionary [get_session_statistics] returns. *)
Record session_statistics : Type := mk_session_statistics {
  stat_session_id : string;
  last_decision_time : float;
  time_since_last_decision : float
}.

(** [get_session_statistics]: [None] for a session without entry; [now] is
    the clock reading. *)
Definition get_session_statistics (self : service) (session_id : string)
    (now : float) : option session_statistics :=
  match _last_decision_time self !! session_id with
  | None => None
  | Some last =>
      Some (mk_session_statistics session_id last (now - last)%float)
  end.

(** The dictionary [get_reply_strategy_info] returns. *)
Record strategy_info : Type := mk_strategy_info {
  info_enabled : pyval;
  info_reply_probability : float;
  strategy_type : string;
  description : string
}.

(** [get_reply_strategy_info].  The text of a float with one decimal,
    [format(x, ".1f")], is the parameter [format_1f]. *)
Definition get_reply_strategy_info (format_1f : float -> string)
    (self : service) : strategy_info :=
  mk_strategy_info (enabled self) (reply_probability self)
    (if truthy (enabled self) then "probabilistic" else "always_reply")
    (if truthy (enabled self)
     then String.append "概率性回复 ("
            (String.append (format_1f (reply_probability self * 100)%float)
               "%)")
     else "总是回复").

(** The dictionary [get_service_status] returns. *)
Record service_status : Type := mk_service_status {
  service_name : string;
  status_enabled : pyval;
  status_reply_probability : float;
  active_sessions : nat;
  strategy_description : string
}.

(** [get_service_status]. *)
Definition get_service_status (format_1f : float -> string) (self : service)
  : service_status :=
  mk_service_status "ProbabilisticReplyService" (enabled self)
    (reply_probability self) (size (_last_decision_time self))
    (description (get_reply_strategy_info format_1f self)).

End ProbabilisticReplyService.

(** ** main.py: the voice pipeline of [VoiceToTextPlugin] *)

Module VoiceToTextPlugin.
Import Py ProbabilisticReplyService.

(** [MessageType] of the framework. *)
Inductive MessageType : Type :=
  | GROUP_MESSAGE
  | FRIEND_MESSAGE
  | OTHER_MESSAGE.

Definition MessageType_eqb (a b : MessageType) : bool :=
  match a, b with
  | GROUP_MESSAGE, GROUP_MESSAGE => true
  | FRIEND_MESSAGE, FRIEND_MESSAGE => true
  | OTHER_MESSAGE, OTHER_MESSAGE => true
  | _, _ => false
  end.

(** A message component: a voice [Record] or anything else. *)
Inductive component : Type :=
  | RecordComp (voice : string)
  | OtherComp.

(** What the pipeline reads of an [AstrMessageEvent]. *)
Record AstrMessageEvent : Type := mk_event {
  unified_msg_origin : string;
  get_message_type : MessageType;
  get_messages : list component
}.

(** A [Conversation] of the conversation manager; [history] is a JSON
    text or [None]. *)
Record conversation : Type := mk_conversation {
  history : option string
}.

(** The attributes of the plugin the pipeline reads, with the two flags
    of its permission service. *)
Record plugin : Type := mk_plugin {
  enable_chat_reply : pyval;
  console_output : pyval;
  enable_group_voice_recognition : pyval;
  enable_group_voice_reply : pyval
}.

(** The method of the plugin from which a call is made. *)
Inductive method : Type :=
  | at_on_message
  | at_process_voice_message
  | at_process_voice_file
  | at_transcribe_voice
  | at_record_voice_to_history
  | at_generate_intelligent_reply
  | at_cleanup_resources.

(** The calls that leave the plugin, with their arguments. *)
Inductive call : Type :=
  | ProcessVoiceFile (voice : string)
  | TranscribeAudio (audio_file_path : string)
  | GetCurrConversationId (umo : string)
  | NewConversation (umo : string)
  | GetConversation (umo : string) (cid : option string)
  | UpdateConversation (umo : string) (cid : option string)
      (new_history : list pyval)
  | CanProcessVoice
  | CanGenerateReply
  | StopEvent
  | ShouldGenerateReply (session_id : string)
  | GetUsingProvider
  | RequestLlm (prompt : string) (session_id : option string)
      (conv : option conversation)
  | YieldReply
  | CleanupResources
  | CleanupOldSessions
  | LoggerDebug (r : log_record).

Definition event : Type := method * call.

(** How the world outside answers during the handling of one voice
    component: one field per call site, since each site is reached at
    most once.  A [str] that may be [None] is an [option string];
    [get_using_provider] tells whether a provider object came back;
    [json_loads] is [json.loads] on the stored history, with a result
    that is no list counted among its exceptions; [random_random],
    [decision_time] and [cleanup_time] are the values of
    [random.random()] and of the two [time.time()]. *)
Record env : Type := mk_env {
  entry_can_process_voice : result bool;
  process_voice_file : result (option string);
  transcribe_audio : result (option string);
  rec_get_curr_conversation_id : result (option string);
  rec_new_conversation : result (option string);
  rec_get_conversation : result (option conversation);
  json_loads : string -> result (list pyval);
  rec_update_conversation : result unit;
  gate_can_process_voice : result bool;
  can_generate_reply : result bool;
  random_random : float;
  decision_time : float;
  get_using_provider : result bool;
  reply_get_curr_conversation_id : result (option string);
  reply_get_conversation : result (option conversation);
  request_llm : result unit;
  cleanup_resources : result unit;
  cleanup_time : float
}.

(** How far one invocation went.  [no_reply_permitted] names the path on
    which chat reply is off or [can_generate_reply] answers no. *)
Inductive outcome : Type :=
  | permission_denied
  | file_error
  | transcription_empty
  | recorded_only
  | reply_skipped
  | reply_emitted
  | error
  | no_reply_permitted.

(** *** Computations: state of the reply service, exceptions, trace *)

Definition M (A : Type) : Type :=
  service -> result A * service * list event.

Definition ret {A} (a : A) : M A := fun s => (Ok a, s, []).

Definition bind {A B} (m : M A) (k : A -> M B) : M B :=
  fun s =>
    match m s with
    | (Ok a, s1, t1) =>
        match k a s1 with
        | (r, s2, t2) => (r, s2, t1 ++ t2)
        end
    | (Raise e, s1, t1) => (Raise e, s1, t1)
    end.

(** [try: m  except Exception: h]. *)
Definition try_except {A} (m : M A) (h : exn -> M A) : M A :=
  fun s =>
    match m s with
    | (Ok a, s1, t1) => (Ok a, s1, t1)
    | (Raise e, s1, t1) =>
        match h e s1 with
        | (r, s2, t2) => (r, s2, t1 ++ t2)
        end
    end.

(** [try: m  finally: f]: an exception of [f] replaces the result. *)
Definition try_finally {A} (m : M A) (f : M unit) : M A :=
  fun s =>
    match m s with
    | (r, s1, t1) =>
        match f s1 with
        | (Ok _, s2, t2) => (r, s2, t1 ++ t2)
        | (Raise e, s2, t2) => (Raise e, s2, t1 ++ t2)
        end
    end.

(** A call made from [site] that the environment answers with [answer]. *)
Definition invoke {A} (site : method) (c : call) (answer : result A) : M A :=
  fun s => (answer, s, [(site, c)]).

(** A builtin that may raise and leaves no trace. *)
Definition of_result {A} (r : result A) : M A := fun s => (r, s, []).

Notation "'let*' x ':=' m 'in' k" := (bind m (fun x => k))
  (at level 10, x name, m at level 100, k at level 200).

Section Pipeline.
Variable self : plugin.
Variable event_ : AstrMessageEvent.
Variable world : env.

(** [_process_voice_file]. *)
Definition _process_voice_file (voice : string) : M (option string) :=
  try_except
    (invoke at_process_voice_file (ProcessVoiceFile voice)
       (process_voice_file world))
    (fun _ => ret None).

(** [_transcribe_voice]: both handlers return [None]. *)
Definition _transcribe_voice (audio_file_path : string)
  : M (option string) :=
  try_except
    (invoke at_transcribe_voice (TranscribeAudio audio_file_path)
       (transcribe_audio world))
    (fun _ => ret None).

(** The entry appended to the history. *)
Definition voice_message (transcribed_text : string) : pyval :=
  VDict (<["role" := VStr "user"]>
         (<["content" := VStr (String.append "[语音消息] " transcribed_text)]>
          ∅)).

(** [current_history]: the parsed history of the conversation, or the
    empty list. *)
Definition load_history (conv : option conversation) : M (list pyval) :=
  match conv with
  | Some c =>
      if truthy_str (history c)
      then match history c with
           | Some h => of_result (json_loads world h)
           | None => ret []
           end
      else ret []
  | None => ret []
  end.

(** The [try] block of [_record_voice_to_history]. *)
Definition record_voice_to_history_try (transcribed_text : string)
  : M unit :=
  let umo := unified_msg_origin event_ in
  let* conversation_id :=
    invoke at_record_voice_to_history (GetCurrConversationId umo)
      (rec_get_curr_conversation_id world) in
  let* conversation_id :=
    if negb (truthy_str conversation_id)
    then invoke at_record_voice_to_history (NewConversation umo)
           (rec_new_conversation world)
    else ret conversation_id in
  let* conv :=
    invoke at_record_voice_to_history
      (GetConversation umo conversation_id)
      (rec_get_conversation world) in
  let* current_history := load_history conv in
  invoke at_record_voice_to_history
    (UpdateConversation umo conversation_id
       (current_history ++ [voice_message transcribed_text]))
    (rec_update_conversation world).

(** [_record_voice_to_history]: the handler only logs. *)
Definition _record_voice_to_history (transcribed_text : string) : M unit :=
  try_except (record_voice_to_history_try transcribed_text)
    (fun _ => ret tt).

(** [_generate_intelligent_reply]; the result tells whether the request
    was handed over. *)
Definition _generate_intelligent_reply (text : string) : M outcome :=
  let umo := unified_msg_origin event_ in
  try_except
    (let* llm_provider :=
       invoke at_generate_intelligent_reply GetUsingProvider
         (get_using_provider world) in
     if negb llm_provider then ret error
     else
       let* curr_cid :=
         invoke at_generate_intelligent_reply (GetCurrConversationId umo)
           (reply_get_curr_conversation_id world) in
       let* conv :=
         if truthy_str curr_cid
         then invoke at_generate_intelligent_reply
                (GetConversation umo curr_cid)
                (reply_get_conversation world)
         else ret None in
       let* _ :=
         invoke at_generate_intelligent_reply
           (RequestLlm (String.append "用户通过语音说了: " text) curr_cid conv)
           (request_llm world) in
       let* _ := invoke at_generate_intelligent_reply YieldReply (Ok tt) in
       ret reply_emitted)
    (fun _ => ret error).

(** The reply service's [should_generate_reply], called on the
    plugin's service object. *)
Definition call_should_generate_reply (session_id : string) : M bool :=
  fun s =>
    match should_generate_reply s (Some session_id)
            (random_random world) (decision_time world) with
    | (verdict, s') =>
        (Ok verdict, s',
         [(at_process_voice_message, ShouldGenerateReply session_id)])
    end.

(** The reply service's [cleanup_old_sessions] with its default age. *)
Definition call_cleanup_old_sessions : M unit :=
  fun s =>
    match cleanup_old_sessions s default_max_age (cleanup_time world) with
    | (_, s', logs) =>
        (Ok tt, s',
         (at_cleanup_resources, CleanupOldSessions)
           :: map (fun r => (at_cleanup_resources, LoggerDebug r)) logs)
    end.

(** [_cleanup_resources]; the plugin has its
    [probabilistic_reply_service] attribute once it is constructed. *)
Definition _cleanup_resources : M unit :=
  try_except
    (let* _ :=
       invoke at_cleanup_resources CleanupResources
         (cleanup_resources world) in
     call_cleanup_old_sessions)
    (fun _ => ret tt).

(** The condition of step 4, evaluated left to right with [and]. *)
Definition group_record_only : M bool :=
  if MessageType_eqb (get_message_type event_) GROUP_MESSAGE then
    if truthy (enable_group_voice_recognition self) then
      if is_False (enable_group_voice_reply self) then
        invoke at_process_voice_message CanProcessVoice
          (gate_can_process_voice world)
      else ret false
    else ret false
  else ret false.

(** Step 5 of [_process_voice_message]. *)
Definition reply_stage (text : string) : M outcome :=
  if truthy (enable_chat_reply self) then
    let* allowed :=
      invoke at_process_voice_message CanGenerateReply
        (can_generate_reply world) in
    if allowed then
      let* go := call_should_generate_reply (unified_msg_origin event_) in
      if go then _generate_intelligent_reply text
      else ret reply_skipped
    else ret no_reply_permitted
  else ret no_reply_permitted.

(** Steps 4 and 5: the group gate, then the reply stage. *)
Definition gate_and_reply (text : string) : M outcome :=
  let* stop := group_record_only in
  if stop then
    let* _ := invoke at_process_voice_message StopEvent (Ok tt) in
    ret recorded_only
  else reply_stage text.

(** From step 3 on, reached with a transcript. *)
Definition after_transcription (text : string) : M outcome :=
  let* _ := _record_voice_to_history text in
  gate_and_reply text.

(** The [try] block of [_process_voice_message]; each [return] carries
    the outcome it stands for. *)
Definition process_voice_message_body (voice : string) : M outcome :=
  let* processed_file_path := _process_voice_file voice in
  if negb (truthy_str processed_file_path) then ret file_error
  else
    let* transcribed_text :=
      _transcribe_voice (default "" processed_file_path) in
    if negb (truthy_str transcribed_text) then ret transcription_empty
    else after_transcription (default "" transcribed_text).

(** [_process_voice_message]: both [except] clauses only log.  The
    decorator [async_operation_handler] comes from [utils/decorators],
    outside these two files; the method is modelled by its body. *)
Definition _process_voice_message (voice : string) : M outcome :=
  try_finally
    (try_except (process_voice_message_body voice) (fun _ => ret error))
    _cleanup_resources.

End Pipeline.

(** [on_message]: the loop over the components of the message; the
    [i]-th component is handled in the world [worlds i]. *)
Fixpoint on_message_loop (self : plugin) (event_ : AstrMessageEvent)
    (worlds : nat -> env) (i : nat) (comps : list component)
  : M (list outcome) :=
  match comps with
  | [] => ret []
  | OtherComp :: rest => on_message_loop self event_ worlds (S i) rest
  | RecordComp voice :: rest =>
      let* allowed :=
        invoke at_on_message CanProcessVoice
          (entry_can_process_voice (worlds i)) in
      let* o :=
        if allowed then _process_voice_message self event_ (worlds i) voice
        else ret permission_denied in
      let* os := on_message_loop self event_ worlds (S i) rest in
      ret (o :: os)
  end.

Definition on_message (self : plugin) (event_ : AstrMessageEvent)
    (worlds : nat -> env) : M (list outcome) :=
  on_message_loop self event_ worlds 0 (get_messages event_).

(** *** Reading a trace *)

(** Number of occurrences in a trace of the events selected by [p]. *)
Definition occurrences (p : event -> bool) (t : list event) : nat :=
  length (List.filter p t).

Definition method_eqb (a b : method) : bool :=
  match a, b with
  | at_on_message, at_on_message
  | at_process_voice_message, at_process_voice_message
  | at_process_voice_file, at_process_voice_file
  | at_transcribe_voice, at_transcribe_voice
  | at_record_voice_to_history, at_record_voice_to_history
  | at_generate_intelligent_reply, at_generate_intelligent_reply
  | at_cleanup_resources, at_cleanup_resources => true
  | _, _ => false
  end.

(** The event is a call made from [site]. *)
Definition from_site (site : method) (e : event) : bool :=
  method_eqb (fst e) site.

(** [voice_processing_service.cleanup_resources()], the first statement
    of [_cleanup_resources]: one occurrence per run of the cleanup. *)
Definition is_cleanup (e : event) : bool :=
  match e with
  | (at_cleanup_resources, CleanupResources) => true
  | _ => false
  end.

(** The sweep of the reply service. *)
Definition is_sweep (e : event) : bool :=
  match e with
  | (at_cleanup_resources, CleanupOldSessions) => true
  | _ => false
  end.

(** [process_voice_file], the first statement of
    [_process_voice_message]: one occurrence per invocation. *)
Definition is_pipeline_entry (e : event) : bool :=
  match e with
  | (at_process_voice_file, ProcessVoiceFile _) => true
  | _ => false
  end.

(** [get_curr_conversation_id] called by the recording step, its first
    statement: one occurrence per run of the step. *)
Definition is_record_step (e : event) : bool :=
  match e with
  | (at_record_voice_to_history, GetCurrConversationId _) => true
  | _ => false
  end.

(** [update_conversation] called by the recording step: the history with
    the transcript appended is handed to the conversation manager. *)
Definition is_history_append (e : event) : bool :=
  match e with
  | (at_record_voice_to_history, UpdateConversation _ _ _) => true
  | _ => false
  end.

(** [event.stop_event()]. *)
Definition is_stop_event (e : event) : bool :=
  match e with
  | (at_process_voice_message, StopEvent) => true
  | _ => false
  end.

(** [should_generate_reply] of the reply service. *)
Definition is_decision (e : event) : bool :=
  match e with
  | (at_process_voice_message, ShouldGenerateReply _) => true
  | _ => false
  end.

(** Any call made by [_generate_intelligent_reply]. *)
Definition is_reply_generator (e : event) : bool :=
  from_site at_generate_intelligent_reply e.

(** [on_message] answered the component without entering the pipeline. *)
Definition is_denied (o : outcome) : bool :=
  match o with permission_denied => true | _ => false end.

(** The three parts of a run. *)
Definition result_of {A} (x : result A * service * list event) : result A :=
  fst (fst x).
Definition state_of {A} (x : result A * service * list event) : service :=
  snd (fst x).
Definition trace_of {A} (x : result A * service * list event) : list event :=
  snd x.

(** Every value [m] returns satisfies [Q]. *)
Definition returns {A} (Q : A -> Prop) (m : M A) : Prop :=
  forall s a, result_of (m s) = Ok a -> Q a.

(** No run of [m] makes a call selected by [p]. *)
Definition never (p : event -> bool) {A} (m : M A) : Prop :=
  forall s, occurrences p (trace_of (m s)) = 0.

(** The reply service after [_cleanup_resources]: swept, unless releasing
    the temporary files raised. *)
Definition service_after_cleanup (world : env) (s : service) : service :=
  match cleanup_resources world with
  | Ok _ =>
      snd (fst (cleanup_old_sessions s default_max_age (cleanup_time world)))
  | Raise _ => s
  end.

(** The outcome of an invocation whose [try] block ended with [r]. *)
Definition outcome_of (r : result outcome) : outcome :=
  match r with
  | Ok o => o
  | Raise _ => error
  end.

(** [terminate]: the handler only logs. *)
Definition terminate (world : env) : M unit :=
  try_except (_cleanup_resources world) (fun _ => ret tt).

(** The reply is handed to the framework. *)
Definition is_yield (e : event) : bool :=
  match e with
  | (at_generate_intelligent_reply, YieldReply) => true
  | _ => false
  end.

(** [event.request_llm] is called. *)
Definition is_request_llm (e : event) : bool :=
  match e with
  | (at_generate_intelligent_reply, RequestLlm _ _ _) => true
  | _ => false
  end.

(** The permission check of the group gate. *)
Definition is_gate_check (e : event) : bool :=
  match e with
  | (at_process_voice_message, CanProcessVoice) => true
  | _ => false
  end.

(** [can_generate_reply] is asked. *)
Definition is_reply_check (e : event) : bool :=
  match e with
  | (at_process_voice_message, CanGenerateReply) => true
  | _ => false
  end.

(** The speech-to-text service is called. *)
Definition is_transcription (e : event) : bool :=
  match e with
  | (at_transcribe_voice, TranscribeAudio _) => true
  | _ => false
  end.

(** The recording step creates a conversation. *)
Definition is_new_conversation (e : event) : bool :=
  match e with
  | (at_record_voice_to_history, NewConversation _) => true
  | _ => false
  end.

(** A conversation is fetched for the reply. *)
Definition is_reply_conversation_lookup (e : event) : bool :=
  match e with
  | (at_generate_intelligent_reply, GetConversation _ _) => true
  | _ => false
  end.


(** The permission check at the entry of [on_message]. *)
Definition is_entry_check (e : event) : bool :=
  match e with
  | (at_on_message, CanProcessVoice) => true
  | _ => false
  end.

(** [isinstance(comp, Record)]. *)
Definition is_record (comp : component) : bool :=
  match comp with
  | RecordComp _ => true
  | OtherComp => false
  end.
End VoiceToTextPlugin.

(** * main.py: construction of [VoiceToTextPlugin] *)

Module PluginSetup.
Import Py ProbabilisticReplyService VoiceToTextPlugin.

(** The constructors of the classes outside these two files, each by what
    it returns or raises: [PluginConfig.create_default()],
    [PermissionService(config)] with the two flags the pipeline reads of
    it, [VoiceProcessingService(plugin_config)] and
    [STTService(config, context)]. *)
Record collaborators : Type := mk_collaborators {
  create_default : result unit;
  new_permission_service : gmap string pyval -> result (pyval * pyval);
  new_voice_processing_service : result unit;
  new_stt_service : gmap string pyval -> result unit
}.

(** The constructed plugin: the attributes the pipeline reads, and the
    reply service. *)
Record plugin_object : Type := mk_plugin_object {
  attributes : plugin;
  probabilistic_reply_service : service
}.

(** [section.get(key, default)]: only a dictionary has [get]. *)
Definition section_get (section : pyval) (key : string) (dflt : pyval)
  : result pyval :=
  match section with
  | VDict d => Ok (default dflt (d !! key))
  | _ => Raise AttributeError
  end.

Section Construction.
Variable float_of_str : string -> result float.
Variable c : collaborators.

(** The [try] block of [_initialize_services]. *)
Definition initialize_services_try (config : gmap string pyval)
  : result (pyval * pyval * service) :=
  match new_permission_service c config with
  | Raise e => Raise e
  | Ok flags =>
      match new_voice_processing_service c with
      | Raise e => Raise e
      | Ok _ =>
          match new_stt_service c config with
          | Raise e => Raise e
          | Ok _ =>
              match ProbabilisticReplyService.__init__ float_of_str config
              with
              | Raise e => Raise e
              | Ok reply_service => Ok (flags, reply_service)
              end
          end
      end
  end.

(** [_initialize_services]: every exception is raised again as
    [VoiceToTextError]. *)
Definition _initialize_services (config : gmap string pyval)
  : result (pyval * pyval * service) :=
  match initialize_services_try config with
  | Ok services => Ok services
  | Raise _ => Raise VoiceToTextError
  end.

(** [__init__]; [config or {}] is the empty dictionary when no
    configuration is given, and the configuration itself otherwise (an
    empty one is the empty dictionary either way). *)
Definition __init__ (config : option (gmap string pyval))
  : result plugin_object :=
  let config := default ∅ config in
  match create_default c with
  | Raise e => Raise e
  | Ok _ =>
      match section_get (default (VDict ∅) (config !! "Chat_Reply"))
              "Enable_Chat_Reply" (VBool true) with
      | Raise e => Raise e
      | Ok enable_chat_reply =>
          match section_get
                  (default (VDict ∅) (config !! "Output_Settings"))
                  "Console_Output" (VBool true) with
          | Raise e => Raise e
          | Ok console_output =>
              match _initialize_services config with
              | Raise e => Raise e
              | Ok (flags, reply_service) =>
                  Ok (mk_plugin_object
                        (mk_plugin enable_chat_reply console_output
                           (fst flags) (snd flags))
                        reply_service)
              end
          end
      end
  end.

End Construction.

End PluginSetup.

(** ** Vocabulary of the properties *)

Module Spec.
Import Py ProbabilisticReplyService VoiceToTextPlugin.

(** [f] lies in the closed interval from 0 to 1. *)
Definition in_unit_interval (f : float) : Prop :=
  (0 <=? f)%float = true /\ (f <=? 1)%float = true.

(** The states a service object can be in: constructed, then reloaded,
    asked for decisions and swept any number of times. *)
Inductive reachable (float_of_str : string -> result float)
  : service -> Prop :=
  | reach_init config self :
      __init__ float_of_str config = Ok self ->
      reachable float_of_str self
  | reach_update self new_config :
      reachable float_of_str self ->
      reachable float_of_str
        (snd (update_config float_of_str self new_config))
  | reach_decide self session_id random_value now :
      reachable float_of_str self ->
      reachable float_of_str
        (snd (should_generate_reply self session_id random_value now))
  | reach_cleanup self max_age_seconds now :
      reachable float_of_str self ->
      reachable float_of_str
        (snd (fst (cleanup_old_sessions self max_age_seconds now))).

(** The reply probability in force after construction from [cfg], if
    construction succeeds, and after a reload with [cfg]. *)
Definition effective_after_init (float_of_str : string -> result float)
    (cfg : gmap string pyval) : option float :=
  match __init__ float_of_str cfg with
  | Ok self => Some (reply_probability self)
  | Raise _ => None
  end.

Definition effective_after_reload (float_of_str : string -> result float)
    (self : service) (cfg : gmap string pyval) : float :=
  reply_probability (snd (update_config float_of_str self cfg)).

(** Transcription gives no text: the provider raises, or answers [None]
    or the empty string. *)
Definition transcription_yields_nothing (world : env) : Prop :=
  match transcribe_audio world with
  | Ok text => truthy_str text = false
  | Raise _ => True
  end.

(** The event and the configuration of the record-only mode for groups:
    a group message, group voice recognition on, group voice reply set to
    [False]. *)
Definition group_record_only_mode (self : plugin) (event_ : AstrMessageEvent)
  : Prop :=
  get_message_type event_ = GROUP_MESSAGE
  /\ truthy (enable_group_voice_recognition self) = true
  /\ enable_group_voice_reply self = VBool false.

(** A decision or a sweep, with the clock reading it sees. *)
Inductive op : Type :=
  | Decide (session_id : option string) (random_value now : float)
  | Sweep (max_age_seconds : Z) (now : float).

Definition clock_of (o : op) : float :=
  match o with
  | Decide _ _ now => now
  | Sweep _ now => now
  end.

Definition apply_op (self : service) (o : op) : service :=
  match o with
  | Decide session_id random_value now =>
      snd (should_generate_reply self session_id random_value now)
  | Sweep max_age_seconds now =>
      snd (fst (cleanup_old_sessions self max_age_seconds now))
  end.

Definition run_ops (self : service) (ops : list op) : service :=
  foldl apply_op self ops.

(** The clock readings of [ops] never go back, starting from [c]. *)
Fixpoint clock_nondecreasing (c : float) (ops : list op) : Prop :=
  match ops with
  | [] => True
  | o :: rest =>
      (c <=? clock_of o)%float = true /\ clock_nondecreasing (clock_of o) rest
  end.

(** The clock reading after [ops], [c] being the one before. *)
Definition last_clock (c : float) (ops : list op) : float :=
  foldl (fun _ o => clock_of o) c ops.

(** No stored timestamp is later than [c]. *)
Definition store_not_after (self : service) (c : float) : Prop :=
  forall sid t,
    _last_decision_time self !! sid = Some t -> (t <=? c)%float = true.

(** Preparing the voice file gives no path: the processing service
    raises, or answers [None] or the empty string. *)
Definition file_yields_nothing (world : env) : Prop :=
  match process_voice_file world with
  | Ok path => truthy_str path = false
  | Raise _ => True
  end.

(** The decision the pipeline asks of the reply service in state [s]. *)
Definition pipeline_decision (event_ : AstrMessageEvent) (world : env)
    (s : service) : bool * service :=
  should_generate_reply s (Some (unified_msg_origin event_))
    (random_random world) (decision_time world).

End Spec.

(** ** Concrete objects for the examples *)

Module Examples.
Import Py ProbabilisticReplyService VoiceToTextPlugin Spec.

(** A [float] builtin that accepts no string. *)
Definition no_float_of_str (s : string) : result float := Raise ValueError.

Definition config_with_probability (p : pyval) : gmap string pyval :=
  {[ "Chat_Reply" := VDict {[ "Reply_Probability" := p ]} ]}.

Definition config_enabled (p : pyval) : gmap string pyval :=
  {[ "Chat_Reply" :=
       VDict (<["Enable_Probabilistic_Reply" := VBool true]>
              {[ "Reply_Probability" := p ]}) ]}.

(** Services with the policy disabled and enabled. *)
Definition disabled_service : service :=
  mk_service ∅ (VBool false) 0.3 ∅.

Definition enabled_service (p : float) : service :=
  mk_service (config_enabled (VFloat p)) (VBool true) p ∅.

(** An enabled service that saw session [s1] at time 100. *)
Definition seen_service : service :=
  mk_service ∅ (VBool true) 0.3 {[ "s1" := 100%float ]}.

(** A plugin for groups that are recorded without reply, and one that
    replies. *)
Definition record_only_plugin : plugin :=
  mk_plugin (VBool true) (VBool true) (VBool true) (VBool false).

Definition replying_plugin : plugin :=
  mk_plugin (VBool true) (VBool true) (VBool false) (VBool false).

Definition group_event : AstrMessageEvent :=
  mk_event "aiocqhttp:GroupMessage:1001" GROUP_MESSAGE [RecordComp "v.amr"].

Definition private_event : AstrMessageEvent :=
  mk_event "aiocqhttp:FriendMessage:42" FRIEND_MESSAGE [RecordComp "v.amr"].

(** A world in which every collaborator answers. *)
Definition fair_world : env :=
  mk_env (Ok true) (Ok (Some "/tmp/v.wav")) (Ok (Some "hello"))
    (Ok (Some "c1")) (Ok (Some "c2")) (Ok (Some (mk_conversation None)))
    (fun _ => Ok []) (Ok tt) (Ok true) (Ok true) 0.25 1700000000
    (Ok true) (Ok (Some "c1")) (Ok (Some (mk_conversation None)))
    (Ok tt) (Ok tt) 1700000000.

(** The same world with one answer changed. *)
Definition with_entry_check (b : result bool) (w : env) : env :=
  mk_env b (process_voice_file w) (transcribe_audio w)
    (rec_get_curr_conversation_id w) (rec_new_conversation w)
    (rec_get_conversation w) (json_loads w) (rec_update_conversation w)
    (gate_can_process_voice w) (can_generate_reply w) (random_random w)
    (decision_time w) (get_using_provider w)
    (reply_get_curr_conversation_id w) (reply_get_conversation w)
    (request_llm w) (cleanup_resources w) (cleanup_time w).

Definition with_transcription (r : result (option string)) (w : env) : env :=
  mk_env (entry_can_process_voice w) (process_voice_file w) r
    (rec_get_curr_conversation_id w) (rec_new_conversation w)
    (rec_get_conversation w) (json_loads w) (rec_update_conversation w)
    (gate_can_process_voice w) (can_generate_reply w) (random_random w)
    (decision_time w) (get_using_provider w)
    (reply_get_curr_conversation_id w) (reply_get_conversation w)
    (request_llm w) (cleanup_resources w) (cleanup_time w).

Definition with_history_lookup (r : result (option string)) (w : env) : env :=
  mk_env (entry_can_process_voice w) (process_voice_file w)
    (transcribe_audio w) r (rec_new_conversation w)
    (rec_get_conversation w) (json_loads w) (rec_update_conversation w)
    (gate_can_process_voice w) (can_generate_reply w) (random_random w)
    (decision_time w) (get_using_provider w)
    (reply_get_curr_conversation_id w) (reply_get_conversation w)
    (request_llm w) (cleanup_resources w) (cleanup_time w).

(** The conversation manager is down when the recording step asks. *)
Definition history_down_world : env :=
  with_history_lookup (Raise (OtherException "database is locked")) fair_world.

Definition with_gate_check (b : result bool) (w : env) : env :=
  mk_env (entry_can_process_voice w) (process_voice_file w)
    (transcribe_audio w) (rec_get_curr_conversation_id w)
    (rec_new_conversation w) (rec_get_conversation w) (json_loads w)
    (rec_update_conversation w) b (can_generate_reply w) (random_random w)
    (decision_time w) (get_using_provider w)
    (reply_get_curr_conversation_id w) (reply_get_conversation w)
    (request_llm w) (cleanup_resources w) (cleanup_time w).

(** The permission service raises when the group gate asks. *)
Definition gate_raises_world : env :=
  with_gate_check (Raise (OtherException "permission backend")) fair_world.

(** The speech-to-text provider fails. *)
Definition stt_down_world : env :=
  with_transcription (Raise STTProviderError) fair_world.

(** The permission service denies the voice at the entry of [on_message]. *)
Definition denied_world : env := with_entry_check (Ok false) fair_world.


Definition with_voice_file (r : result (option string)) (w : env) : env :=
  mk_env (entry_can_process_voice w) r (transcribe_audio w)
    (rec_get_curr_conversation_id w) (rec_new_conversation w)
    (rec_get_conversation w) (json_loads w) (rec_update_conversation w)
    (gate_can_process_voice w) (can_generate_reply w) (random_random w)
    (decision_time w) (get_using_provider w)
    (reply_get_curr_conversation_id w) (reply_get_conversation w)
    (request_llm w) (cleanup_resources w) (cleanup_time w).

(** The voice file cannot be prepared. *)
Definition file_down_world : env := with_voice_file (Ok None) fair_world.

Definition with_provider (b : result bool) (w : env) : env :=
  mk_env (entry_can_process_voice w) (process_voice_file w)
    (transcribe_audio w) (rec_get_curr_conversation_id w)
    (rec_new_conversation w) (rec_get_conversation w) (json_loads w)
    (rec_update_conversation w) (gate_can_process_voice w)
    (can_generate_reply w) (random_random w) (decision_time w) b
    (reply_get_curr_conversation_id w) (reply_get_conversation w)
    (request_llm w) (cleanup_resources w) (cleanup_time w).

(** No LLM provider is configured. *)
Definition no_provider_world : env := with_provider (Ok false) fair_world.

(** A message without voice. *)
Definition text_event : AstrMessageEvent :=
  mk_event "aiocqhttp:FriendMessage:42" FRIEND_MESSAGE [OtherComp; OtherComp].

(** Constructors that all succeed; the permission service is set for
    groups recorded without reply. *)
Definition fair_collaborators : PluginSetup.collaborators :=
  PluginSetup.mk_collaborators (Ok tt) (fun _ => Ok (VBool true, VBool false))
    (Ok tt) (fun _ => Ok tt).
End Examples.

(** * Properties *)

Import Py ProbabilisticReplyService VoiceToTextPlugin Spec.

(** ** Order on binary64 floats *)

Section FloatOrder.
Open Scope float_scope.

(** [<=] on floats compares sign, exponent and mantissa in this order;
    it is transitive, and reflexive on whatever it relates (a NaN is
    related to nothing). *)
Lemma SFleb_trans (x y z : spec_float) :
  SFleb x y = true -> SFleb y z = true -> SFleb x z = true.
Proof.
  unfold SFleb.
  destruct x as [sx|sx| |sx mx ex], y as [sy|sy| |sy my ey],
    z as [sz|sz| |sz mz ez]; simpl;
    repeat match goal with s : bool |- _ => destruct s end;
    simpl; try done.
  all: change (PosDef.Pos.compare_cont Eq) with Pos.compare.
  all: destruct (Z.compare_spec ex ey), (Z.compare_spec ey ez),
         (Z.compare_spec ex ez); simpl; try done; try lia.
  all: subst.
  all: destruct (Pos.compare_spec mx my), (Pos.compare_spec my mz),
         (Pos.compare_spec mx mz); simpl; try done; try lia.
Qed.

Lemma SFleb_refl_of_leb (x y : spec_float) :
  SFleb x y = true -> SFleb x x = true.
Proof.
  unfold SFleb.
  destruct x as [sx|sx| |sx mx ex], y as [sy|sy| |sy my ey]; simpl;
    repeat match goal with s : bool |- _ => destruct s end;
    simpl; try done.
  all: intros _.
  all: change (PosDef.Pos.compare_cont Eq) with Pos.compare.
  all: rewrite ?Z.compare_refl, ?Pos.compare_refl; simpl.
  all: done.
Qed.

Lemma float_leb_trans (x y z : float) :
  (x <=? y) = true -> (y <=? z) = true -> (x <=? z) = true.
Proof. rewrite !FloatAxioms.leb_spec. apply SFleb_trans. Qed.

Lemma float_leb_refl_l (x y : float) :
  (x <=? y) = true -> (x <=? x) = true.
Proof. rewrite !FloatAxioms.leb_spec. apply SFleb_refl_of_leb. Qed.

Lemma float_leb_refl_r (x y : float) :
  (x <=? y) = true -> (y <=? y) = true.
Proof.
  rewrite !FloatAxioms.leb_spec. unfold SFleb.
  destruct (Prim2SF x) as [sx|sx| |sx mx ex],
    (Prim2SF y) as [sy|sy| |sy my ey]; simpl;
    repeat match goal with s : bool |- _ => destruct s end;
    simpl; try done.
  all: intros _.
  all: change (PosDef.Pos.compare_cont Eq) with Pos.compare.
  all: rewrite ?Z.compare_refl, ?Pos.compare_refl; simpl.
  all: done.
Qed.

Lemma float_ltb_leb (x y : float) :
  (x <? y) = true -> (x <=? y) = true.
Proof.
  rewrite FloatAxioms.ltb_spec, FloatAxioms.leb_spec. unfold SFltb, SFleb.
  by destruct (SFcompare _ _) as [[]|].
Qed.

(** A float between [0] and [0] is a zero. *)
Lemma float_leb_zero_eqb (r : float) :
  (0 <=? r) = true -> (r <=? 0) = (r =? 0).
Proof.
  rewrite !FloatAxioms.leb_spec, FloatAxioms.eqb_spec.
  change (Prim2SF 0) with (S754_zero false).
  unfold SFleb, SFeqb.
  destruct (Prim2SF r) as [s|s| |s m e]; simpl; try done.
  all: by destruct s.
Qed.

(** The clamp of [_load_config] ends in the unit interval for every
    float, NaN and the infinities included. *)
Lemma py_clamp_range (x : float) :
  (0 <=? Py.py_max 0 (Py.py_min 1 x)) = true
  /\ (Py.py_max 0 (Py.py_min 1 x) <=? 1) = true.
Proof.
  unfold Py.py_max, Py.py_min.
  destruct (x <? 1) eqn:Hx1.
  - destruct (0 <? x) eqn:H0x.
    + split; by apply float_ltb_leb.
    + by vm_compute.
  - by vm_compute.
Qed.

End FloatOrder.

(** ** The reply service *)

Section ReplyService.
Import Py ProbabilisticReplyService Spec.
Open Scope float_scope.

Variable float_of_str : string -> result float.

(** What [_load_config] assigns when nothing raises. *)
Lemma load_config_ok (self : service) (d : gmap string pyval) (p : float) :
  default (VDict ∅) (config self !! "Chat_Reply") = VDict d ->
  py_float float_of_str
    (default (VFloat 0.3) (d !! "Reply_Probability")) = Ok p ->
  _load_config float_of_str self
  = (Ok tt,
     mk_service (config self)
       (default (VBool false) (d !! "Enable_Probabilistic_Reply"))
       (py_max 0 (py_min 1 p)) (_last_decision_time self)).
Proof.
  intros Hd Hp. unfold _load_config. rewrite Hd, Hp. reflexivity.
Qed.

(** [_load_config] leaves the probability in range, raise or not. *)
Lemma load_config_range (self : service) :
  in_unit_interval (reply_probability self) ->
  in_unit_interval (reply_probability (snd (_load_config float_of_str self))).
Proof.
  intros Hself. unfold _load_config.
  destruct (default (VDict ∅) (config self !! "Chat_Reply")); simpl; try done.
  destruct (py_float _ _); simpl; try done.
  apply py_clamp_range.
Qed.

Lemma load_config_ok_range (self self' : service) :
  _load_config float_of_str self = (Ok tt, self') ->
  in_unit_interval (reply_probability self').
Proof.
  unfold _load_config.
  destruct (default (VDict ∅) (config self !! "Chat_Reply")); simpl; try done.
  destruct (py_float _ _); simpl; try done.
  intros [= <-]. apply py_clamp_range.
Qed.

Lemma init_range (cfg : gmap string pyval) (self : service) :
  __init__ float_of_str cfg = Ok self ->
  in_unit_interval (reply_probability self).
Proof.
  unfold __init__.
  destruct (_load_config _ _) as [[[]|e] s] eqn:Hload; try done.
  intros [= <-]. eapply load_config_ok_range, Hload.
Qed.

Lemma should_generate_reply_probability self sid r now :
  reply_probability (snd (should_generate_reply self sid r now))
  = reply_probability self.
Proof.
  unfold should_generate_reply.
  destruct (truthy (enabled self)); simpl; [|done].
  destruct sid as [sid|]; [|done].
  by destruct (truthy_str (Some sid)).
Qed.

Lemma reachable_range (self : service) :
  reachable float_of_str self -> in_unit_interval (reply_probability self).
Proof.
  induction 1 as [cfg self Hinit|self cfg _ IH|self sid r now _ IH
                 |self age now _ IH].
  - eapply init_range, Hinit.
  - unfold update_config. by apply load_config_range.
  - by rewrite should_generate_reply_probability.
  - done.
Qed.

End ReplyService.

Section ReplyServiceClaims.
Import Py ProbabilisticReplyService Spec.
Open Scope float_scope.

Variable float_of_str : string -> result float.

(** C1.  [should_generate_reply] answers [True] whenever the policy is
    disabled, whatever the draw; with the policy enabled it answers
    [True] exactly when the draw [r] satisfies [r <= reply_probability].
    Hence, for a draw in [0, 1), probability 1.0 always replies and
    probability 0.0 replies only on the draw [r == 0]. *)
Theorem should_generate_reply_verdict
    (self : service) (session_id : option string) (r now : float) :
  let verdict := fst (should_generate_reply self session_id r now) in
  (truthy (enabled self) = false -> verdict = true)
  /\ (truthy (enabled self) = true ->
      verdict = (r <=? reply_probability self))
  /\ (truthy (enabled self) = true -> reply_probability self = 1 ->
      (0 <=? r) = true -> (r <? 1) = true -> verdict = true)
  /\ (truthy (enabled self) = true -> reply_probability self = 0 ->
      (0 <=? r) = true -> verdict = (r =? 0)).
Proof.
  unfold should_generate_reply. cbv zeta.
  destruct (truthy (enabled self)) eqn:Hen; simpl.
  - split; [done|]. split; [done|]. split.
    + intros _ -> _ Hr. by apply float_ltb_leb.
    + intros _ -> Hr. by apply float_leb_zero_eqb.
  - repeat split; done.
Qed.

(** C2.  The stored reply probability lies in [0.0, 1.0] in every state
    a service object can reach (construction, then any reloads, decisions
    and sweeps, failed reloads included); a configuration whose
    probability is 1.5 loads as 1.0 and one whose probability is -0.2
    loads as 0.0, at construction and at reload. *)
Theorem reply_probability_clamped :
  (forall self,
      reachable float_of_str self ->
      in_unit_interval (reply_probability self))
  /\ (forall cfg d,
        cfg !! "Chat_Reply" = Some (VDict d) ->
        d !! "Reply_Probability" = Some (VFloat 1.5) ->
        effective_after_init float_of_str cfg = Some 1
        /\ forall self, effective_after_reload float_of_str self cfg = 1)
  /\ (forall cfg d,
        cfg !! "Chat_Reply" = Some (VDict d) ->
        d !! "Reply_Probability" = Some (VFloat (-0.2)) ->
        effective_after_init float_of_str cfg = Some 0
        /\ forall self, effective_after_reload float_of_str self cfg = 0).
Proof.
  split; [apply reachable_range|].
  split; intros cfg d Hsec Hp.
  all: unfold effective_after_init, effective_after_reload, __init__,
         update_config.
  all: split; [|intros self].
  all: erewrite load_config_ok; cycle 1;
    [simpl; rewrite Hsec; reflexivity|rewrite Hp; reflexivity|reflexivity].
Qed.

(** C10.  A configuration without the [Chat_Reply] section, or whose
    section lacks the keys, loads as disabled ([False], so every call
    replies) with reply probability 0.3, at construction and at every
    reload. *)
Theorem chat_reply_defaults :
  (forall cfg,
      cfg !! "Chat_Reply" = None ->
      __init__ float_of_str cfg = Ok (mk_service cfg (VBool false) 0.3 ∅)
      /\ forall self,
          update_config float_of_str self cfg
          = (Ok tt,
             mk_service cfg (VBool false) 0.3 (_last_decision_time self)))
  /\ (forall cfg d,
        cfg !! "Chat_Reply" = Some (VDict d) ->
        d !! "Enable_Probabilistic_Reply" = None ->
        (forall self,
            __init__ float_of_str cfg = Ok self ->
            enabled self = VBool false)
        /\ forall self,
            enabled (snd (update_config float_of_str self cfg))
            = VBool false)
  /\ (forall cfg d,
        cfg !! "Chat_Reply" = Some (VDict d) ->
        d !! "Reply_Probability" = None ->
        effective_after_init float_of_str cfg = Some 0.3
        /\ forall self,
            fst (update_config float_of_str self cfg) = Ok tt
            /\ effective_after_reload float_of_str self cfg = 0.3)
  /\ (forall self session_id r now,
        enabled self = VBool false ->
        should_generate_reply self session_id r now = (true, self)).
Proof.
  split; [|split; [|split]].
  - intros cfg Hsec. split; [|intros self].
    all: unfold __init__, update_config.
    all: erewrite load_config_ok; cycle 1;
      [simpl; rewrite Hsec; reflexivity|reflexivity|reflexivity].
  - intros cfg d Hsec Hen.
    assert (Hload : forall s, config s = cfg ->
              enabled (snd (_load_config float_of_str s)) = VBool false).
    { intros s Hs. unfold _load_config. rewrite Hs, Hsec. simpl.
      rewrite Hen. by destruct (py_float _ _). }
    split; intros self.
    + unfold __init__.
      destruct (_load_config _ _) as [[[]|e] s] eqn:Hl; [|done].
      intros [= <-]. specialize (Hload (mk_service cfg VNone 0 ∅) eq_refl).
      by rewrite Hl in Hload.
    + unfold update_config. by apply Hload.
  - intros cfg d Hsec Hp.
    unfold effective_after_init, effective_after_reload, __init__,
      update_config.
    split; [|intros self; split].
    all: erewrite load_config_ok; cycle 1;
      [simpl; rewrite Hsec; reflexivity|rewrite Hp; reflexivity
      |reflexivity].
  - intros self sid r now Hen. unfold should_generate_reply.
    by rewrite Hen.
Qed.

(** C6, as the code has it.  With the policy enabled, every call of
    [should_generate_reply] sets the store entry of a non-empty session
    identifier to the clock reading, whatever the draw and the verdict,
    and changes nothing for an empty or absent identifier; with the
    policy disabled the call changes nothing at all. *)
Theorem should_generate_reply_touches_store
    (self : service) (session_id : option string) (r now : float) :
  let self' := snd (should_generate_reply self session_id r now) in
  (truthy (enabled self) = true ->
   forall sid, session_id = Some sid -> sid <> "" ->
     self' = set_last_decision_time self
               (<[sid := now]> (_last_decision_time self)))
  /\ (truthy (enabled self) = true ->
      (session_id = None \/ session_id = Some "") -> self' = self)
  /\ (truthy (enabled self) = false -> self' = self).
Proof.
  unfold should_generate_reply. cbv zeta.
  destruct (truthy (enabled self)); simpl; repeat split; try done.
  - intros _ sid -> Hne. simpl.
    destruct (String.eqb_spec sid ""); [done|reflexivity].
  - intros _ [-> | ->]; reflexivity.
Qed.

End ReplyServiceClaims.

(** ** The session store *)

Section SessionStore.
Import Py ProbabilisticReplyService Spec.

Lemma lookup_foldl_delete (l : list string) (m : gmap string float)
    (i : string) :
  foldl (fun m k => delete k m) m l !! i
  = if decide (i ∈ l) then None else m !! i.
Proof.
  revert m. induction l as [|k l IH]; intros m; simpl.
  - by destruct (decide (i ∈ [])) as [H%elem_of_nil|].
  - rewrite IH, lookup_delete.
    destruct (decide (i ∈ l)) as [Hl|Hl], (decide (k = i)) as [Heq|Hk],
      (decide (i ∈ k :: l)) as [Hkl|Hkl]; try done.
    all: try (exfalso; apply Hkl; set_solver).
    exfalso. apply elem_of_cons in Hkl as [Heq|]; done.
Qed.

Lemma size_foldl_delete (l : list string) (m : gmap string float) :
  NoDup l ->
  (forall k, k ∈ l -> is_Some (m !! k)) ->
  (size (foldl (fun m k => delete k m) m l) + length l)%nat = size m.
Proof.
  revert m. induction l as [|k l IH]; intros m Hnd Hin; simpl; [lia|].
  apply NoDup_cons in Hnd as [Hk Hnd].
  destruct (Hin k) as [x Hx]; [set_solver|].
  assert (size m <> 0) as Hne
    by (by apply map_size_ne_0_lookup_2 with k, mk_is_Some with x).
  pose proof (map_size_delete_Some k m (mk_is_Some _ _ Hx)) as Hdel.
  specialize (IH (delete k m) Hnd).
  rewrite <- Nat.add_succ_comm. simpl. rewrite IH; [lia|].
  intros j Hj. rewrite lookup_delete_ne; [apply Hin; set_solver|].
  by intros ->.
Qed.

Lemma NoDup_map_fst_filter {A B} (f : A * B -> bool) (l : list (A * B)) :
  NoDup (map fst l) -> NoDup (map fst (List.filter f l)).
Proof.
  induction l as [|x l IH]; simpl; [done|].
  intros [Hx Hl]%NoDup_cons. destruct (f x); simpl; [|by apply IH].
  apply NoDup_cons. split; [|by apply IH].
  intros Hin. apply Hx.
  apply list_elem_of_In, in_map_iff in Hin as (y & Hy & Hin).
  apply filter_In in Hin as [Hin _].
  apply list_elem_of_In, in_map_iff. by exists y.
Qed.

Lemma elem_of_sessions_to_remove (store : gmap string float)
    (now : float) (age : Z) (sid : string) :
  sid ∈ sessions_to_remove store now age
  <-> exists t,
      store !! sid = Some t /\ float_gt_int (now - t)%float age = true.
Proof.
  unfold sessions_to_remove. rewrite list_elem_of_In, in_map_iff. split.
  - intros ([k t] & Hfst & [Hin Hage]%filter_In).
    simpl in *. subst k. exists t. split; [|done].
    by apply elem_of_map_to_list, list_elem_of_In.
  - intros (t & Hsid & Hage). exists (sid, t). split; [done|].
    apply filter_In. split; [|done].
    by apply list_elem_of_In, elem_of_map_to_list.
Qed.

Lemma NoDup_sessions_to_remove store now age :
  NoDup (sessions_to_remove store now age).
Proof. apply NoDup_map_fst_filter, NoDup_fst_map_to_list. Qed.

(** The store after a sweep, entry by entry. *)
Lemma lookup_cleanup_old_sessions (self : service) (age : Z) (now : float)
    (sid : string) :
  _last_decision_time (snd (fst (cleanup_old_sessions self age now))) !! sid
  = match _last_decision_time self !! sid with
    | Some t => if float_gt_int (now - t)%float age then None else Some t
    | None => None
    end.
Proof.
  unfold cleanup_old_sessions; simpl. rewrite lookup_foldl_delete.
  destruct (decide (sid ∈ _)) as [Hin|Hout].
  - apply elem_of_sessions_to_remove in Hin as (t & -> & ->). done.
  - destruct (_last_decision_time self !! sid) as [t|] eqn:Hsid; [|done].
    destruct (float_gt_int (now - t)%float age) eqn:Hage; [|done].
    exfalso. apply Hout, elem_of_sessions_to_remove. by exists t.
Qed.

Lemma length_sessions_to_remove (self : service) (age : Z) (now : float) :
  length (sessions_to_remove (_last_decision_time self) now age)
  = (size (_last_decision_time self)
     - size (_last_decision_time
               (snd (fst (cleanup_old_sessions self age now)))))%nat.
Proof.
  unfold cleanup_old_sessions; simpl.
  pose proof (size_foldl_delete
    (sessions_to_remove (_last_decision_time self) now age)
    (_last_decision_time self)
    (NoDup_sessions_to_remove _ _ _)) as Hsize.
  rewrite <- Hsize; [lia|].
  intros k (t & Hk & _)%elem_of_sessions_to_remove. by exists t.
Qed.

(** C5, as the code has it.  A sweep removes exactly the entries whose
    age [now - lastDecisionAt], computed on floats, strictly exceeds
    [max_age_seconds] and keeps every other entry with its timestamp;
    the policy is untouched.  The call returns [None]: the number of
    removed entries is only written to the debug log, and only when it
    is positive.  A session touched at 1700000000.0 is removed by the
    sweep at 1700003601.0 and kept by the sweep at 1700003599.0, for the
    default age of 3600 seconds. *)
Theorem cleanup_old_sessions_sweeps_expired
    (self : service) (max_age_seconds : Z) (now : float) :
  let r := cleanup_old_sessions self max_age_seconds now in
  let self' := snd (fst r) in
  let removed :=
    (size (_last_decision_time self)
     - size (_last_decision_time self'))%nat in
  (forall sid,
      _last_decision_time self' !! sid
      = match _last_decision_time self !! sid with
        | Some t =>
            if float_gt_int (now - t)%float max_age_seconds then None
            else Some t
        | None => None
        end)
  /\ config self' = config self
  /\ enabled self' = enabled self
  /\ reply_probability self' = reply_probability self
  /\ fst (fst r) = VNone
  /\ snd r = (if Nat.eqb removed 0 then [] else [DebugCleaned removed])
  /\ (forall s r0,
        truthy (enabled s) = true ->
        let touched :=
          snd (should_generate_reply s (Some "s1") r0 1700000000) in
        _last_decision_time
          (snd (fst (cleanup_old_sessions touched default_max_age
                       1700003601))) !! "s1" = None
        /\ _last_decision_time
             (snd (fst (cleanup_old_sessions touched default_max_age
                          1700003599))) !! "s1" = Some 1700000000%float).
Proof.
  cbv zeta. split; [apply lookup_cleanup_old_sessions|].
  do 4 (split; [reflexivity|]). split.
  - rewrite <- length_sessions_to_remove.
    unfold cleanup_old_sessions; simpl.
    by destruct (sessions_to_remove _ _ _).
  - intros s r0 Hen. rewrite !lookup_cleanup_old_sessions.
    unfold should_generate_reply. rewrite Hen. simpl.
    rewrite lookup_insert_eq. split; reflexivity.
Qed.

(** *** Timestamps under a clock that does not go back *)

(** After one operation an entry is an old entry or carries the clock
    reading of the operation. *)
Lemma apply_op_lookup (self : service) (o : op) (sid : string) (t : float) :
  _last_decision_time (apply_op self o) !! sid = Some t ->
  _last_decision_time self !! sid = Some t \/ t = clock_of o.
Proof.
  destruct o as [session_id r now|age now]; unfold apply_op, clock_of.
  - unfold should_generate_reply.
    destruct (truthy (enabled self)); simpl; [|by left].
    destruct session_id as [s|]; [|by left].
    destruct (truthy_str (Some s)); [|by left]. simpl.
    rewrite lookup_insert. destruct (decide (s = sid)); [|by left].
    intros [= <-]. by right.
  - rewrite lookup_cleanup_old_sessions.
    destruct (_last_decision_time self !! sid) as [t0|]; [|done].
    destruct (float_gt_int _ _); [done|]. by left.
Qed.

(** After a run an entry is an entry of the start or is not earlier
    than the starting clock. *)
Lemma run_ops_lookup (ops : list op) (self : service) (c : float)
    (sid : string) (t : float) :
  clock_nondecreasing c ops ->
  _last_decision_time (run_ops self ops) !! sid = Some t ->
  _last_decision_time self !! sid = Some t \/ (c <=? t)%float = true.
Proof.
  revert self c. induction ops as [|o ops IH]; intros self c Hmono Ht.
  - by left.
  - destruct Hmono as [Hc Hrest]. simpl in Ht.
    destruct (IH _ _ Hrest Ht) as [Hold|Hnew].
    + apply apply_op_lookup in Hold as [Hold| ->]; [by left|by right].
    + right. by eapply float_leb_trans.
Qed.

Lemma run_ops_not_after (ops : list op) (self : service) (c : float) :
  store_not_after self c ->
  clock_nondecreasing c ops ->
  store_not_after (run_ops self ops) (last_clock c ops).
Proof.
  revert self c. induction ops as [|o ops IH]; intros self c Hstore Hmono.
  - done.
  - destruct Hmono as [Hc Hrest]. simpl. apply IH; [|done].
    intros sid t Ht. apply apply_op_lookup in Ht as [Ht| ->].
    + eapply float_leb_trans; [by eapply Hstore|done].
    + by eapply float_leb_refl_r,Hc.
Qed.

Lemma clock_nondecreasing_app (c : float) (ops1 ops2 : list op) :
  clock_nondecreasing c (ops1 ++ ops2) ->
  clock_nondecreasing c ops1
  /\ clock_nondecreasing (last_clock c ops1) ops2.
Proof.
  revert c. induction ops1 as [|o ops1 IH]; intros c; simpl; [done|].
  intros [Hc Hrest]. destruct (IH _ Hrest). done.
Qed.

(** C8, as the code has it.  Provided the clock readings seen by
    successive decisions and sweeps never go back (and start no earlier
    than the timestamps already stored), the timestamp of a session
    never decreases: whatever operations [ops2] follow a state in which
    the session has timestamp [t], any timestamp [t'] it has afterwards
    satisfies [t <= t'].  A sweep removes an entry or leaves its
    timestamp as it is. *)
Theorem last_decision_time_monotone
    (self : service) (c : float) (ops1 ops2 : list op)
    (sid : string) (t t' : float) :
  store_not_after self c ->
  clock_nondecreasing c (ops1 ++ ops2) ->
  _last_decision_time (run_ops self ops1) !! sid = Some t ->
  _last_decision_time (run_ops self (ops1 ++ ops2)) !! sid = Some t' ->
  (t <=? t')%float = true
  /\ forall age now,
      _last_decision_time
        (apply_op (run_ops self ops1) (Sweep age now)) !! sid = None
      \/ _last_decision_time
           (apply_op (run_ops self ops1) (Sweep age now)) !! sid = Some t.
Proof.
  intros Hstore [Hmono1 Hmono2]%clock_nondecreasing_app Ht Ht'. split.
  - unfold run_ops in Ht'. rewrite foldl_app in Ht'.
    pose proof (run_ops_not_after _ _ _ Hstore Hmono1 _ _ Ht) as Hbound.
    destruct (run_ops_lookup _ _ _ _ _ Hmono2 Ht') as [Hsame|Hlater].
    + unfold run_ops in Ht. rewrite Ht in Hsame. injection Hsame as <-.
      by eapply float_leb_refl_l.
    + by eapply float_leb_trans.
  - intros age now. unfold apply_op.
    rewrite lookup_cleanup_old_sessions, Ht.
    destruct (float_gt_int _ _); [by left|by right].
Qed.

End SessionStore.

(** ** The voice pipeline *)

Section PipelineLemmas.
Import Py ProbabilisticReplyService VoiceToTextPlugin.

Lemma occurrences_app (p : event -> bool) (t1 t2 : list event) :
  occurrences p (t1 ++ t2) = occurrences p t1 + occurrences p t2.
Proof. unfold occurrences. by rewrite List.filter_app, length_app. Qed.

Lemma occurrences_nil (p : event -> bool) : occurrences p [] = 0.
Proof. done. Qed.

Lemma occurrences_cons (p : event -> bool) (e : event) (t : list event) :
  occurrences p (e :: t) = (if p e then 1 else 0) + occurrences p t.
Proof. unfold occurrences. simpl. by destruct (p e). Qed.

Lemma never_ret (p : event -> bool) {A} (a : A) : never p (ret a).
Proof. by intros s. Qed.

Lemma never_of_result (p : event -> bool) {A} (r : result A) :
  never p (of_result r).
Proof. by intros s. Qed.

Lemma never_invoke (p : event -> bool) {A} site c (answer : result A) :
  p (site, c) = false -> never p (invoke site c answer).
Proof. intros Hp s. unfold occurrences. simpl. by rewrite Hp. Qed.

Lemma never_bind (p : event -> bool) {A B} (m : M A) (k : A -> M B) :
  never p m -> (forall a, never p (k a)) -> never p (bind m k).
Proof.
  intros Hm Hk s. specialize (Hm s). unfold bind.
  destruct (m s) as [[[a|e] s1] t1]; [|done].
  specialize (Hk a s1). destruct (k a s1) as [[r s2] t2].
  unfold trace_of in *. simpl in *. rewrite occurrences_app. lia.
Qed.

Lemma never_try_except (p : event -> bool) {A} (m : M A) (h : exn -> M A) :
  never p m -> (forall e, never p (h e)) -> never p (try_except m h).
Proof.
  intros Hm Hh s. specialize (Hm s). unfold try_except.
  destruct (m s) as [[[a|e] s1] t1]; [done|].
  specialize (Hh e s1). destruct (h e s1) as [[r s2] t2].
  unfold trace_of in *. simpl in *. rewrite occurrences_app. lia.
Qed.

(** A handler that only logs turns every exception into a result. *)
Lemma try_except_ret {A} (m : M A) (a : A) (s : service) :
  exists a', result_of (try_except m (fun _ => ret a) s) = Ok a'.
Proof.
  unfold try_except, result_of.
  destruct (m s) as [[[a'|e] s1] t1]; simpl; eauto.
Qed.

End PipelineLemmas.

Ltac never_step :=
  first
    [ apply never_ret
    | apply never_of_result
    | apply never_invoke; solve [reflexivity | auto]
    | apply never_bind; [|intros ?]
    | apply never_try_except; [|intros ?]
    | match goal with
      | |- never _ (if ?b then _ else _) => destruct b
      | |- never _ (match ?x with _ => _ end) => destruct x
      end ].

Section PipelineStages.
Import Py ProbabilisticReplyService VoiceToTextPlugin.

Variable self : plugin.
Variable event_ : AstrMessageEvent.
Variable world : env.

Lemma never_call_should_generate_reply (p : event -> bool) sid :
  p (at_process_voice_message, ShouldGenerateReply sid) = false ->
  never p (call_should_generate_reply world sid).
Proof.
  intros Hp s. unfold call_should_generate_reply.
  destruct (should_generate_reply _ _ _ _). unfold occurrences. simpl.
  by rewrite Hp.
Qed.

Lemma never_call_cleanup_old_sessions (p : event -> bool) :
  p (at_cleanup_resources, CleanupOldSessions) = false ->
  (forall r, p (at_cleanup_resources, LoggerDebug r) = false) ->
  never p (call_cleanup_old_sessions world).
Proof.
  intros Hp Hlog s. unfold call_cleanup_old_sessions.
  destruct (cleanup_old_sessions _ _ _) as [[v s'] logs].
  unfold trace_of. simpl. rewrite occurrences_cons, Hp. simpl.
  induction logs as [|r logs IH]; [done|].
  simpl. by rewrite occurrences_cons, Hlog.
Qed.

(** The calls of a stage all come from that stage. *)
Lemma never_process_voice_file (p : event -> bool) voice :
  (forall c, p (at_process_voice_file, c) = false) ->
  never p (_process_voice_file world voice).
Proof. intros Hp. unfold _process_voice_file. repeat never_step. Qed.

Lemma never_transcribe_voice (p : event -> bool) path :
  (forall c, p (at_transcribe_voice, c) = false) ->
  never p (_transcribe_voice world path).
Proof. intros Hp. unfold _transcribe_voice. repeat never_step. Qed.

Lemma never_record_voice_to_history (p : event -> bool) text :
  (forall c, p (at_record_voice_to_history, c) = false) ->
  never p (_record_voice_to_history event_ world text).
Proof.
  intros Hp.
  unfold _record_voice_to_history, record_voice_to_history_try, load_history.
  repeat never_step.
Qed.

Lemma never_generate_intelligent_reply (p : event -> bool) text :
  (forall c, p (at_generate_intelligent_reply, c) = false) ->
  never p (_generate_intelligent_reply event_ world text).
Proof.
  intros Hp. unfold _generate_intelligent_reply. repeat never_step.
Qed.

Lemma never_cleanup_resources (p : event -> bool) :
  (forall c, p (at_cleanup_resources, c) = false) ->
  never p (_cleanup_resources world).
Proof.
  intros Hp. unfold _cleanup_resources. repeat never_step.
  by apply never_call_cleanup_old_sessions.
Qed.

End PipelineStages.

Section PipelineRuns.

Variable self : plugin.
Variable event_ : AstrMessageEvent.
Variable world : env.

(** [_cleanup_resources] always returns, having called the release of the
    temporary files once and the sweep unless that release raised. *)
Lemma cleanup_resources_run (s : service) :
  exists t,
    _cleanup_resources world s = (Ok tt, service_after_cleanup world s, t)
    /\ occurrences is_cleanup t = 1
    /\ occurrences is_sweep t
       = match cleanup_resources world with Ok _ => 1 | Raise _ => 0 end.
Proof.
  unfold _cleanup_resources, try_except, bind, invoke,
    call_cleanup_old_sessions, service_after_cleanup, ret.
  destruct (cleanup_resources world) as [[]|e].
  - destruct (cleanup_old_sessions s _ _) as [[v s'] logs].
    eexists. split; [reflexivity|]. simpl.
    rewrite !occurrences_cons. simpl.
    assert (forall p,
              (forall r, p (at_cleanup_resources, LoggerDebug r) = false)
              -> occurrences p
                   (map (fun r => (at_cleanup_resources, LoggerDebug r)) logs)
                 = 0) as Hlogs.
    { intros p Hp. induction logs as [|r logs IH]; [done|].
      simpl. by rewrite occurrences_cons, Hp. }
    rewrite !Hlogs; done.
  - eexists. split; [reflexivity|]. done.
Qed.

(** The recording step always returns, leaves the reply service alone and
    calls [update_conversation] at most once: once when its [try] block
    meets no exception. *)
Lemma record_voice_to_history_run (text : string) (s : service) :
  exists t,
    _record_voice_to_history event_ world text s = (Ok tt, s, t)
    /\ (forall e,
          result_of (record_voice_to_history_try event_ world text s)
          = Raise e ->
          record_voice_to_history_try event_ world text s = (Raise e, s, t))
    /\ occurrences is_record_step t = 1
    /\ occurrences is_history_append t <= 1
    /\ (result_of (record_voice_to_history_try event_ world text s) = Ok tt ->
        occurrences is_history_append t = 1).
Proof.
  unfold _record_voice_to_history, record_voice_to_history_try, load_history,
    try_except, bind, invoke, ret, of_result, result_of.
  destruct (rec_get_curr_conversation_id world) as [cid|e1]; simpl;
    [|eexists; split; [reflexivity|]; repeat split; try done; auto;
      by intros e [= <-]].
  destruct (negb (truthy_str cid)); simpl.
  1: destruct (rec_new_conversation world) as [cid'|e2]; simpl;
    [|eexists; split; [reflexivity|]; repeat split; try done; auto;
      by intros e [= <-]].
  all: destruct (rec_get_conversation world) as [[c|]|e3]; simpl;
    try (eexists; split; [reflexivity|]; repeat split; try done; auto;
         by intros e [= <-]).
  all: try destruct (truthy_str (history c)); simpl.
  all: try destruct (history c) as [h|]; simpl.
  all: try destruct (json_loads world h) as [hist|e4]; simpl.
  all: destruct (rec_update_conversation world) as [[]|e5]; simpl.
  all: eexists; (split; [reflexivity|]); repeat split; try done; auto.
  all: by intros e [= <-].
Qed.

(** When the [try] block of the recording step completes, the history
    handed to [update_conversation] is the loaded one followed by the
    voice message. *)
Lemma record_voice_to_history_appends (text : string) (s : service) :
  result_of (record_voice_to_history_try event_ world text s) = Ok tt ->
  exists cid hist,
    In (at_record_voice_to_history,
        UpdateConversation (unified_msg_origin event_) cid
          (hist ++ [voice_message text]))
      (trace_of (_record_voice_to_history event_ world text s)).
Proof.
  unfold _record_voice_to_history, record_voice_to_history_try, load_history,
    try_except, bind, invoke, ret, of_result, result_of, trace_of.
  destruct (rec_get_curr_conversation_id world) as [cid|e1]; simpl; [|done].
  destruct (negb (truthy_str cid)); simpl.
  1: destruct (rec_new_conversation world) as [cid'|e2]; simpl; [|done].
  all: destruct (rec_get_conversation world) as [[c|]|e3]; simpl; try done.
  all: try destruct (truthy_str (history c)); simpl.
  all: try destruct (history c) as [h|]; simpl.
  all: try destruct (json_loads world h) as [hist|e4]; simpl; try done.
  all: destruct (rec_update_conversation world) as [[]|e5]; simpl; try done.
  all: intros _; eexists.
  all: first [exists hist; simpl; solve [eauto 10]
             |exists []; simpl; solve [eauto 10]].
Qed.

End PipelineRuns.

Section Returns.

Lemma returns_ret {A} (Q : A -> Prop) (a : A) : Q a -> returns Q (ret a).
Proof. intros Ha s a' [= <-]. done. Qed.

Lemma returns_bind {A B} (Q : B -> Prop) (m : M A) (k : A -> M B) :
  (forall a, returns Q (k a)) -> returns Q (bind m k).
Proof.
  intros Hk s b. unfold bind, result_of.
  destruct (m s) as [[[a|e] s1] t1]; [|done].
  specialize (Hk a s1 b). unfold result_of in Hk.
  by destruct (k a s1) as [[r s2] t2].
Qed.

Lemma returns_try_except {A} (Q : A -> Prop) (m : M A) (h : exn -> M A) :
  returns Q m -> (forall e, returns Q (h e)) -> returns Q (try_except m h).
Proof.
  intros Hm Hh s a. specialize (Hm s a). unfold try_except, result_of in *.
  destruct (m s) as [[[a'|e] s1] t1]; [done|].
  specialize (Hh e s1 a). unfold result_of in Hh.
  by destruct (h e s1) as [[r s2] t2].
Qed.

Lemma returns_try_finally {A} (Q : A -> Prop) (m : M A) (f : M unit) :
  returns Q m -> returns Q (try_finally m f).
Proof.
  intros Hm s a. specialize (Hm s a). unfold try_finally, result_of in *.
  destruct (m s) as [[r s1] t1].
  by destruct (f s1) as [[[[]|e] s2] t2].
Qed.

End Returns.

Ltac returns_step :=
  first
    [ apply returns_ret; reflexivity
    | apply returns_bind; intros ?
    | apply returns_try_except; [|intros ?]
    | apply returns_try_finally
    | match goal with
      | |- returns _ (if ?b then _ else _) => destruct b
      | |- returns _ (match ?x with _ => _ end) => destruct x
      end ].

(** Unfolds the pipeline down to its stages. *)
Ltac unfold_pipeline :=
  unfold _process_voice_message, process_voice_message_body,
    after_transcription, gate_and_reply, reply_stage, group_record_only.

(** Solves [never p m] for a stage [m] of the pipeline and a predicate [p]
    given by cases. *)
Ltac never_pipeline :=
  unfold_pipeline;
  repeat first
    [ apply never_process_voice_file; intros ?; reflexivity
    | apply never_transcribe_voice; intros ?; reflexivity
    | apply never_record_voice_to_history; intros ?; reflexivity
    | apply never_generate_intelligent_reply; intros ?; reflexivity
    | apply never_cleanup_resources; intros ?; reflexivity
    | apply never_call_should_generate_reply; reflexivity
    | never_step ].

Section PipelineClaims.

Variable self : plugin.
Variable event_ : AstrMessageEvent.

Lemma trace_try_except_ret {A} (m : M A) (a : A) (s : service) :
  trace_of (try_except m (fun _ => ret a) s) = trace_of (m s).
Proof.
  unfold try_except, trace_of.
  destruct (m s) as [[[a'|e] s1] t1]; simpl; [done|apply app_nil_r].
Qed.

(** Every invocation starts with one call of [process_voice_file] and
    makes no other. *)
Lemma pipeline_entry_once (world : env) (voice : string) (s : service) :
  occurrences is_pipeline_entry
    (trace_of (process_voice_message_body self event_ world voice s)) = 1.
Proof.
  assert (forall (k : option string -> M outcome),
             (forall a, never is_pipeline_entry (k a)) ->
             occurrences is_pipeline_entry
               (trace_of (bind (_process_voice_file world voice) k s)) = 1)
    as Hfirst.
  { intros k Hk. unfold bind, _process_voice_file, try_except, invoke, ret.
    destruct (process_voice_file world) as [file|e]; simpl.
    - specialize (Hk file s). destruct (k file s) as [[r s2] t2].
      unfold trace_of in *. simpl in *. rewrite occurrences_cons, Hk. done.
    - specialize (Hk None s). destruct (k None s) as [[r s2] t2].
      unfold trace_of in *. simpl in *. rewrite occurrences_cons, Hk. done. }
  unfold process_voice_message_body. apply Hfirst.
  intros file. never_pipeline.
Qed.

Lemma process_voice_message_run (world : env) (voice : string) (s : service) :
  exists o s1 t1 t2,
    try_except (process_voice_message_body self event_ world voice)
      (fun _ => ret error) s = (Ok o, s1, t1)
    /\ is_denied o = false
    /\ _process_voice_message self event_ world voice s
       = (Ok o, service_after_cleanup world s1, t1 ++ t2)
    /\ occurrences is_cleanup t1 = 0
    /\ occurrences is_sweep t1 = 0
    /\ occurrences is_pipeline_entry t1 = 1
    /\ occurrences is_cleanup t2 = 1
    /\ occurrences is_sweep t2
       = match cleanup_resources world with Ok _ => 1 | Raise _ => 0 end
    /\ occurrences is_pipeline_entry t2 = 0.
Proof.
  destruct (try_except_ret (process_voice_message_body self event_ world voice)
              error s) as [o Ho].
  assert (returns (fun o => is_denied o = false)
            (try_except (process_voice_message_body self event_ world voice)
               (fun _ => ret error))) as Hret.
  { unfold process_voice_message_body, after_transcription, gate_and_reply,
      reply_stage, _generate_intelligent_reply.
    repeat returns_step. }
  assert (never is_cleanup
            (try_except (process_voice_message_body self event_ world voice)
               (fun _ => ret error))) as Hc by never_pipeline.
  assert (never is_sweep
            (try_except (process_voice_message_body self event_ world voice)
               (fun _ => ret error))) as Hs by never_pipeline.
  specialize (Hret s o Ho). specialize (Hc s). specialize (Hs s).
  assert (occurrences is_pipeline_entry
            (trace_of
               (try_except
                  (process_voice_message_body self event_ world voice)
                  (fun _ => ret error) s)) = 1) as He.
  { rewrite trace_try_except_ret. apply pipeline_entry_once. }
  assert (never is_pipeline_entry (_cleanup_resources world)) as Hpe
    by never_pipeline.
  unfold _process_voice_message, try_finally.
  destruct (try_except _ _ s) as [[r s1] t1].
  unfold result_of, trace_of in *. simpl in *. subst r.
  destruct (cleanup_resources_run world s1) as (t2 & Hrun & Hc2 & Hs2).
  specialize (Hpe s1). rewrite Hrun in *. 
  exists o, s1, t1, t2. repeat split; done.
Qed.

End PipelineClaims.

Section OnMessage.

Variable self : plugin.
Variable event_ : AstrMessageEvent.
Variable worlds : nat -> env.

(** In a run of [on_message] the cleanup runs once per invocation of
    [_process_voice_message], and the components answered with
    [permission_denied] are those without one. *)
Lemma on_message_loop_cleanups (comps : list component) (i : nat)
    (s : service) r s' t :
  on_message_loop self event_ worlds i comps s = (r, s', t) ->
  occurrences is_cleanup t = occurrences is_pipeline_entry t
  /\ forall outs,
      r = Ok outs ->
      occurrences is_cleanup t + length (List.filter is_denied outs)
      = length outs.
Proof.
  revert i s r s' t.
  induction comps as [|[voice|] comps IH]; intros i s r s' t.
  - intros [= <- <- <-]. split; [done|]. by intros outs [= <-].
  - cbn [on_message_loop]. unfold bind, invoke, ret.
    destruct (entry_can_process_voice (worlds i)) as [[|]|e].
    + destruct (process_voice_message_run self event_ (worlds i) voice s)
        as (o & s1 & t1 & t2 & _ & Hd & Hrun & Hc1 & _ & He1 & Hc2 & _ & He2).
      rewrite Hrun.
      destruct (on_message_loop self event_ worlds (S i) comps _)
        as [[[os|e] s2] t3] eqn:Hrest;
        destruct (IH _ _ _ _ _ Hrest) as [IH1 IH2];
        intros [= <- <- <-];
        repeat (rewrite ?occurrences_cons, ?occurrences_app, ?occurrences_nil;
                simpl).
      * split; [lia|].
        intros outs [= <-]. simpl. rewrite Hd. simpl.
        specialize (IH2 os eq_refl). lia.
      * split; [lia|done].
    + destruct (on_message_loop self event_ worlds (S i) comps _)
        as [[[os|e] s2] t3] eqn:Hrest;
        destruct (IH _ _ _ _ _ Hrest) as [IH1 IH2];
        intros [= <- <- <-];
        repeat (rewrite ?occurrences_cons, ?occurrences_app, ?occurrences_nil;
                simpl).
      * split; [lia|].
        intros outs [= <-]. simpl. specialize (IH2 os eq_refl). lia.
      * split; [lia|done].
    + intros [= <- <- <-]. done.
  - cbn [on_message_loop]. apply IH.
Qed.

End OnMessage.

Section CleanupClaim.

Variable self : plugin.
Variable event_ : AstrMessageEvent.

(** C4, as the code has it.  Every invocation of [_process_voice_message]
    returns and runs the cleanup exactly once, whatever its outcome
    (file error, empty transcription, recorded only, reply skipped or
    emitted, unexpected error in a stage): the temporary files are
    released once, after the [try] block, and the sweep follows once
    unless that release raised.  The permission check of [on_message]
    comes before the invocation: a component it denies starts no
    invocation and no cleanup, so that in a run of [on_message] the
    cleanups are as many as the invocations, one per component not
    answered with [permission_denied]. *)
Theorem cleanup_once_per_invocation
    (world : env) (worlds : nat -> env) (voice : string) (s : service) :
  (exists o t_try t_cleanup,
      _process_voice_message self event_ world voice s
      = (Ok o,
         service_after_cleanup world
           (state_of
              (try_except
                 (process_voice_message_body self event_ world voice)
                 (fun _ => ret error) s)),
         t_try ++ t_cleanup)
      /\ o <> permission_denied
      /\ occurrences is_cleanup t_try = 0
      /\ occurrences is_sweep t_try = 0
      /\ occurrences is_cleanup t_cleanup = 1
      /\ occurrences is_sweep t_cleanup
         = match cleanup_resources world with Ok _ => 1 | Raise _ => 0 end)
  /\ occurrences is_cleanup (trace_of (on_message self event_ worlds s))
     = occurrences is_pipeline_entry
         (trace_of (on_message self event_ worlds s))
  /\ forall outs,
      result_of (on_message self event_ worlds s) = Ok outs ->
      occurrences is_cleanup (trace_of (on_message self event_ worlds s))
      + length (List.filter is_denied outs) = length outs.
Proof.
  split.
  2: { unfold on_message.
       destruct (on_message_loop self event_ worlds 0 (get_messages event_) s)
         as [[r s'] t] eqn:Hloop.
       by eapply on_message_loop_cleanups. }
  destruct (process_voice_message_run self event_ world voice s)
    as (o & s1 & t1 & t2 & Htry & Hd & Hrun & Hc1 & Hs1 & _ & Hc2 & Hs2 & _).
  exists o, t1, t2. rewrite Htry. repeat split; try done.
  by intros ->.
Qed.

End CleanupClaim.

Section StageClaims.

Variable self : plugin.
Variable event_ : AstrMessageEvent.
Variable world : env.

(** What the cleanup adds to a trace. *)
Lemma cleanup_resources_trace (s : service) (t : list event) r s' :
  _cleanup_resources world s = (r, s', t) ->
  occurrences (from_site at_record_voice_to_history) t = 0
  /\ occurrences is_record_step t = 0
  /\ occurrences is_history_append t = 0
  /\ occurrences is_stop_event t = 0
  /\ occurrences is_decision t = 0
  /\ occurrences is_reply_generator t = 0.
Proof.
  intros Hrun.
  repeat split.
  all: match goal with
       | |- occurrences ?p _ = 0 =>
           pose proof (never_cleanup_resources world p (fun c => eq_refl) s)
             as Hp
       end.
  all: by rewrite Hrun in Hp.
Qed.

(** C7.  When the voice file was prepared and transcription gives no text
    (the provider raises, or answers [None] or an empty string), the
    invocation ends with outcome [transcription_empty]: the recording
    step is not entered and nothing is appended to the history, neither
    the decision engine nor the reply generator is called, and only the
    cleanup follows. *)
Theorem empty_transcription_ends_invocation
    (voice : string) (s : service) (file : option string) :
  process_voice_file world = Ok file ->
  truthy_str file = true ->
  transcription_yields_nothing world ->
  let run := _process_voice_message self event_ world voice s in
  result_of run = Ok transcription_empty
  /\ state_of run = service_after_cleanup world s
  /\ occurrences (from_site at_record_voice_to_history) (trace_of run) = 0
  /\ occurrences is_history_append (trace_of run) = 0
  /\ occurrences is_stop_event (trace_of run) = 0
  /\ occurrences is_decision (trace_of run) = 0
  /\ occurrences is_reply_generator (trace_of run) = 0
  /\ occurrences is_cleanup (trace_of run) = 1.
Proof.
  intros Hfile Hpath Hnothing. cbv zeta.
  destruct (cleanup_resources_run world s) as (t & Hrun & Hc & _).
  destruct (cleanup_resources_trace _ _ _ _ Hrun)
    as (H1 & _ & H2 & H3 & H4 & H5).
  assert (_process_voice_message self event_ world voice s
          = (Ok transcription_empty, service_after_cleanup world s,
             [(at_process_voice_file, ProcessVoiceFile voice);
              (at_transcribe_voice, TranscribeAudio (default "" file))] ++ t))
    as ->.
  { unfold _process_voice_message, try_finally, process_voice_message_body,
      _process_voice_file, _transcribe_voice, try_except, bind, invoke, ret.
    rewrite Hfile. simpl. rewrite Hpath. simpl.
    unfold transcription_yields_nothing in Hnothing.
    destruct (transcribe_audio world) as [text|e]; simpl.
    - rewrite Hnothing. simpl. by rewrite Hrun.
    - by rewrite Hrun. }
  unfold result_of, state_of, trace_of. simpl.
  repeat (rewrite ?occurrences_cons, ?occurrences_nil; simpl).
  repeat split; done.
Qed.

(** C3, as the code has it.  For a group event whose voice was transcribed,
    with group voice recognition on, group voice reply [False] and the
    permission check passing, the invocation ends with outcome
    [recorded_only]: the recording step runs exactly once, the event is
    stopped exactly once, and neither the decision engine nor the reply
    generator is called.  The conversation manager is asked to store the
    extended history at most once: exactly once when the [try] block of
    the recording step meets no exception. *)
Theorem group_record_only_run
    (voice : string) (s : service) (file text : option string) :
  process_voice_file world = Ok file ->
  truthy_str file = true ->
  transcribe_audio world = Ok text ->
  truthy_str text = true ->
  group_record_only_mode self event_ ->
  gate_can_process_voice world = Ok true ->
  let run := _process_voice_message self event_ world voice s in
  result_of run = Ok recorded_only
  /\ state_of run = service_after_cleanup world s
  /\ occurrences is_record_step (trace_of run) = 1
  /\ occurrences is_history_append (trace_of run) <= 1
  /\ (result_of
        (record_voice_to_history_try event_ world (default "" text) s)
      = Ok tt ->
      occurrences is_history_append (trace_of run) = 1
      /\ exists cid hist,
          In (at_record_voice_to_history,
              UpdateConversation (unified_msg_origin event_) cid
                (hist ++ [voice_message (default "" text)]))
            (trace_of run))
  /\ occurrences is_stop_event (trace_of run) = 1
  /\ occurrences is_decision (trace_of run) = 0
  /\ occurrences is_reply_generator (trace_of run) = 0
  /\ occurrences is_cleanup (trace_of run) = 1.
Proof.
  intros Hfile Hpath Htext Htruthy (Hgroup & Hrec & Hreply) Hgate. cbv zeta.
  destruct (cleanup_resources_run world s) as (t & Hrun & Hc & _).
  destruct (cleanup_resources_trace _ _ _ _ Hrun)
    as (_ & H1 & H2 & H3 & H4 & H5).
  destruct (record_voice_to_history_run event_ world (default "" text) s)
    as (t_rec & Hrecord & _ & Hr1 & Hr2 & Hr3).
  pose proof (never_record_voice_to_history event_ world is_stop_event
                (default "" text) (fun c => eq_refl) s) as Hr4.
  pose proof (never_record_voice_to_history event_ world is_decision
                (default "" text) (fun c => eq_refl) s) as Hr5.
  pose proof (never_record_voice_to_history event_ world is_reply_generator
                (default "" text) (fun c => eq_refl) s) as Hr6.
  pose proof (never_record_voice_to_history event_ world is_cleanup
                (default "" text) (fun c => eq_refl) s) as Hr7.
  rewrite Hrecord in Hr4, Hr5, Hr6, Hr7. unfold trace_of in *. simpl in *.
  assert (_process_voice_message self event_ world voice s
          = (Ok recorded_only, service_after_cleanup world s,
             [(at_process_voice_file, ProcessVoiceFile voice);
              (at_transcribe_voice, TranscribeAudio (default "" file))]
             ++ (t_rec
                 ++ [(at_process_voice_message, CanProcessVoice);
                     (at_process_voice_message, StopEvent)])
             ++ t))
    as ->.
  { unfold _process_voice_message, try_finally, process_voice_message_body,
      _process_voice_file, _transcribe_voice, after_transcription,
      gate_and_reply, group_record_only, try_except, bind, invoke, ret.
    rewrite Hfile. simpl. rewrite Hpath. simpl.
    rewrite Htext. simpl. rewrite Htruthy. simpl.
    rewrite Hrecord, Hgroup, Hrec, Hreply, Hgate. simpl.
    rewrite Hrun. reflexivity. }
  unfold result_of, state_of. simpl.
  repeat (rewrite ?occurrences_cons, ?occurrences_app, ?occurrences_nil;
          simpl).
  do 4 (split; [first [reflexivity | lia]|]). split; [|repeat split; lia].
  intros Hok. split; [specialize (Hr3 Hok); lia|].
  destruct (record_voice_to_history_appends event_ world _ _ Hok)
    as (cid & hist & Hin).
  rewrite Hrecord in Hin. exists cid, hist.
  do 2 right. apply in_or_app. left. apply in_or_app. by left.
Qed.

(** C9.  An exception in the [try] block of the recording step is caught
    inside the step, which returns normally with the reply service
    unchanged; the invocation then goes on with the group gate and the
    reply stage exactly as they run from that state, and ends with their
    outcome followed by the cleanup. *)
Theorem record_failure_is_contained
    (voice : string) (s : service) (file : option string) (text : string)
    (e : exn) :
  result_of (record_voice_to_history_try event_ world text s) = Raise e ->
  exists t_rec,
    record_voice_to_history_try event_ world text s = (Raise e, s, t_rec)
    /\ _record_voice_to_history event_ world text s = (Ok tt, s, t_rec)
    /\ after_transcription self event_ world text s
       = (result_of (gate_and_reply self event_ world text s),
          state_of (gate_and_reply self event_ world text s),
          t_rec ++ trace_of (gate_and_reply self event_ world text s))
    /\ (process_voice_file world = Ok file ->
        truthy_str file = true ->
        transcribe_audio world = Ok (Some text) ->
        text <> "" ->
        exists t_cleanup,
          _process_voice_message self event_ world voice s
          = (Ok (outcome_of
                   (result_of (gate_and_reply self event_ world text s))),
             service_after_cleanup world
               (state_of (gate_and_reply self event_ world text s)),
             [(at_process_voice_file, ProcessVoiceFile voice);
              (at_transcribe_voice, TranscribeAudio (default "" file))]
             ++ t_rec
             ++ trace_of (gate_and_reply self event_ world text s)
             ++ t_cleanup)).
Proof.
  intros Hfail.
  destruct (record_voice_to_history_run event_ world text s)
    as (t_rec & Hrecord & Htry & _).
  specialize (Htry e Hfail).
  exists t_rec. split; [done|]. split; [done|].
  assert (after_transcription self event_ world text s
          = (result_of (gate_and_reply self event_ world text s),
             state_of (gate_and_reply self event_ world text s),
             t_rec ++ trace_of (gate_and_reply self event_ world text s)))
    as Hafter.
  { unfold after_transcription, bind. rewrite Hrecord.
    by destruct (gate_and_reply self event_ world text s) as [[r s1] t1]. }
  split; [done|].
  intros Hfile Hpath Htext Hne.
  destruct (cleanup_resources_run world
              (state_of (gate_and_reply self event_ world text s)))
    as (t & Hrun & _).
  exists t.
  unfold _process_voice_message, try_finally, process_voice_message_body,
    _process_voice_file, _transcribe_voice, try_except, bind, invoke, ret.
  rewrite Hfile. simpl. rewrite Hpath. simpl. rewrite Htext. simpl.
  destruct (String.eqb_spec text ""); [done|]. simpl.
  rewrite Hafter. simpl.
  destruct (result_of (gate_and_reply self event_ world text s)); simpl;
    rewrite Hrun; simpl; rewrite ?app_nil_r, <- ?app_assoc; reflexivity.
Qed.

End StageClaims.

(** ** The properties at concrete inputs *)

Section Instances.
Import Examples.

(** C1 at a disabled policy, at probability 1.0 and at probability 0.0. *)
Lemma should_generate_reply_verdict_witness :
  fst (should_generate_reply disabled_service (Some "s1") 0.99 100) = true
  /\ fst (should_generate_reply (enabled_service 0.3) (Some "s1") 0.25 100)
     = (0.25 <=? 0.3)%float
  /\ fst (should_generate_reply (enabled_service 1) (Some "s1") 0.99 100)
     = true
  /\ fst (should_generate_reply (enabled_service 0) (Some "s1") 0.25 100)
     = (0.25 =? 0)%float.
Proof.
  split; [|split; [|split]].
  - apply (proj1 (should_generate_reply_verdict disabled_service (Some "s1")
                    0.99 100)).
    reflexivity.
  - apply (proj1 (proj2 (should_generate_reply_verdict (enabled_service 0.3)
                           (Some "s1") 0.25 100))).
    reflexivity.
  - apply (proj1 (proj2 (proj2 (should_generate_reply_verdict
                                  (enabled_service 1) (Some "s1") 0.99 100))));
      reflexivity.
  - apply (proj2 (proj2 (proj2 (should_generate_reply_verdict
                                  (enabled_service 0) (Some "s1") 0.25 100))));
      reflexivity.
Defined.

(** C2 at the probabilities 1.5 and -0.2, and at a reload that raises. *)
Lemma reply_probability_clamped_witness :
  effective_after_init no_float_of_str (config_with_probability (VFloat 1.5))
  = Some 1%float
  /\ effective_after_reload no_float_of_str disabled_service
       (config_with_probability (VFloat (-0.2))) = 0%float
  /\ in_unit_interval
       (effective_after_reload no_float_of_str disabled_service
          (config_with_probability (VStr "often"))).
Proof.
  destruct (reply_probability_clamped no_float_of_str)
    as (Hrange & Hhigh & Hlow).
  split; [|split].
  - eapply Hhigh; reflexivity.
  - eapply Hlow; reflexivity.
  - apply Hrange. apply reach_update.
    apply (reach_init _ ∅). reflexivity.
Defined.

(** C10 at the empty configuration and at an empty section. *)
Lemma chat_reply_defaults_witness :
  __init__ no_float_of_str ∅ = Ok (mk_service ∅ (VBool false) 0.3%float ∅)
  /\ effective_after_init no_float_of_str {[ "Chat_Reply" := VDict ∅ ]}
     = Some 0.3%float
  /\ enabled
       (snd (update_config no_float_of_str (enabled_service 1)
               {[ "Chat_Reply" := VDict ∅ ]})) = VBool false.
Proof.
  destruct (chat_reply_defaults no_float_of_str)
    as (Habsent & Hflag & Hprob & _).
  split; [|split].
  - apply Habsent. reflexivity.
  - eapply Hprob; reflexivity.
  - eapply Hflag; reflexivity.
Defined.

(** C6 fails with the policy disabled: a call with a session identifier
    leaves the store without an entry for it, where the specification has
    the clock reading stored by every call. *)
Lemma disabled_policy_does_not_touch :
  _last_decision_time
    (snd (should_generate_reply disabled_service (Some "s1") 0.25 1700000000))
  !! "s1" = None.
Proof. reflexivity. Qed.

(** C6 at an enabled policy: a reply and a refusal both store the time. *)
Lemma should_generate_reply_touches_store_witness :
  _last_decision_time
    (snd (should_generate_reply (enabled_service 0.3) (Some "s1") 0.25 100))
  !! "s1" = Some 100%float
  /\ _last_decision_time
       (snd (should_generate_reply (enabled_service 0.3) (Some "s1") 0.75 100))
     !! "s1" = Some 100%float
  /\ snd (should_generate_reply (enabled_service 0.3) None 0.25 100)
     = enabled_service 0.3.
Proof.
  split; [|split].
  - rewrite (proj1 (should_generate_reply_touches_store (enabled_service 0.3)
                      (Some "s1") 0.25 100) eq_refl "s1" eq_refl
               ltac:(done)).
    reflexivity.
  - rewrite (proj1 (should_generate_reply_touches_store (enabled_service 0.3)
                      (Some "s1") 0.75 100) eq_refl "s1" eq_refl
               ltac:(done)).
    reflexivity.
  - apply (proj1 (proj2 (should_generate_reply_touches_store
                           (enabled_service 0.3) None 0.25 100)) eq_refl).
    by left.
Defined.

(** C5 fails on the returned value: a sweep that removes one entry
    returns [None], where the specification has it return the count 1;
    the count goes to the debug log. *)
Lemma cleanup_old_sessions_returns_none :
  size (_last_decision_time seen_service) = 1
  /\ fst (fst (cleanup_old_sessions seen_service default_max_age 3701)) = VNone
  /\ size (_last_decision_time
             (snd (fst (cleanup_old_sessions seen_service default_max_age
                          3701)))) = 0
  /\ snd (cleanup_old_sessions seen_service default_max_age 3701)
     = [DebugCleaned 1].
Proof. repeat split; reflexivity. Qed.

(** C5 at a store with one session, swept after 3601 and after 3599
    seconds. *)
Lemma cleanup_old_sessions_sweeps_expired_witness :
  _last_decision_time
    (snd (fst (cleanup_old_sessions seen_service default_max_age 3701)))
  !! "s1" = None
  /\ _last_decision_time
       (snd (fst (cleanup_old_sessions seen_service default_max_age 3699)))
     !! "s1" = Some 100%float.
Proof.
  split.
  - rewrite (proj1 (cleanup_old_sessions_sweeps_expired seen_service
                      default_max_age 3701) "s1").
    reflexivity.
  - rewrite (proj1 (cleanup_old_sessions_sweeps_expired seen_service
                      default_max_age 3699) "s1").
    reflexivity.
Defined.

(** C8 fails when the clock is set back: a decision whose clock reading
    is 50 lowers the timestamp 100 of session [s1] to 50. *)
Lemma clock_set_back_lowers_timestamp :
  _last_decision_time seen_service !! "s1" = Some 100%float
  /\ _last_decision_time
       (apply_op seen_service (Decide (Some "s1") 0.25 50)) !! "s1"
     = Some 50%float
  /\ (100 <=? 50)%float = false.
Proof. repeat split; reflexivity. Qed.

(** C8 along a run of two decisions and a sweep under a clock that moves
    forward. *)
Lemma last_decision_time_monotone_witness :
  clock_nondecreasing 100
    [Decide (Some "s2") 0.25 150; Decide (Some "s1") 0.75 200;
     Sweep default_max_age 250]
  /\ _last_decision_time
       (run_ops seen_service [Decide (Some "s2") 0.25 150]) !! "s1"
     = Some 100%float
  /\ _last_decision_time
       (run_ops seen_service
          [Decide (Some "s2") 0.25 150; Decide (Some "s1") 0.75 200;
           Sweep default_max_age 250]) !! "s1"
     = Some 200%float
  /\ (100 <=? 200)%float = true.
Proof.
  split; [repeat split; reflexivity|].
  split; [reflexivity|]. split; [reflexivity|].
  refine (proj1 (last_decision_time_monotone seen_service 100
                   [Decide (Some "s2") 0.25 150]
                   [Decide (Some "s1") 0.75 200; Sweep default_max_age 250]
                   "s1" 100%float 200%float _ _ _ _)).
  - intros sid t. unfold seen_service. simpl.
    rewrite lookup_singleton. destruct (decide ("s1" = sid)); [|done].
    by intros [= <-].
  - repeat split; reflexivity.
  - reflexivity.
  - reflexivity.
Defined.

(** C3 fails when the conversation manager is down as the recording step
    asks for the conversation: the run ends [recorded_only] with the
    event stopped and nothing appended, where the specification has one
    append. *)
Lemma record_only_without_append :
  group_record_only_mode record_only_plugin group_event
  /\ transcribe_audio history_down_world = Ok (Some "hello")
  /\ gate_can_process_voice history_down_world = Ok true
  /\ result_of
       (_process_voice_message record_only_plugin group_event
          history_down_world "v.amr" disabled_service) = Ok recorded_only
  /\ occurrences is_stop_event
       (trace_of
          (_process_voice_message record_only_plugin group_event
             history_down_world "v.amr" disabled_service)) = 1
  /\ occurrences is_history_append
       (trace_of
          (_process_voice_message record_only_plugin group_event
             history_down_world "v.amr" disabled_service)) = 0.
Proof. repeat split; reflexivity. Qed.

(** C3 in a world where every collaborator answers. *)
Lemma group_record_only_run_witness :
  result_of
    (_process_voice_message record_only_plugin group_event fair_world
       "v.amr" disabled_service) = Ok recorded_only
  /\ occurrences is_history_append
       (trace_of
          (_process_voice_message record_only_plugin group_event fair_world
             "v.amr" disabled_service)) = 1
  /\ occurrences is_stop_event
       (trace_of
          (_process_voice_message record_only_plugin group_event fair_world
             "v.amr" disabled_service)) = 1.
Proof.
  destruct (group_record_only_run record_only_plugin group_event fair_world
              "v.amr" disabled_service (Some "/tmp/v.wav") (Some "hello"))
    as (Hout & _ & _ & _ & Happend & Hstop & _).
  - reflexivity.
  - reflexivity.
  - reflexivity.
  - reflexivity.
  - repeat split; reflexivity.
  - reflexivity.
  - split; [exact Hout|]. split; [|exact Hstop].
    apply (proj1 (Happend eq_refl)).
Defined.

(** C4 fails when the permission service denies the voice: [on_message]
    answers [permission_denied] for it and the cleanup does not run,
    where the specification has it run once. *)
Lemma permission_denied_without_cleanup :
  result_of
    (on_message record_only_plugin group_event (fun _ => denied_world)
       disabled_service) = Ok [permission_denied]
  /\ occurrences is_cleanup
       (trace_of
          (on_message record_only_plugin group_event (fun _ => denied_world)
             disabled_service)) = 0.
Proof. split; reflexivity. Qed.

(** C4 at a message whose voice is processed after the permission
    check, and at an invocation in which the group gate raises. *)
Lemma cleanup_once_per_invocation_witness :
  result_of
    (on_message record_only_plugin group_event (fun _ => fair_world)
       disabled_service) = Ok [recorded_only]
  /\ occurrences is_cleanup
       (trace_of
          (on_message record_only_plugin group_event (fun _ => fair_world)
             disabled_service)) = 1
  /\ result_of
       (_process_voice_message record_only_plugin group_event
          gate_raises_world "v.amr" disabled_service) = Ok error
  /\ occurrences is_cleanup
       (trace_of
          (_process_voice_message record_only_plugin group_event
             gate_raises_world "v.amr" disabled_service)) = 1.
Proof.
  split; [reflexivity|]. split; [|split; [reflexivity|]].
  - pose proof (proj2 (proj2 (cleanup_once_per_invocation record_only_plugin
                                group_event fair_world (fun _ => fair_world)
                                "v.amr" disabled_service))
                  [recorded_only] eq_refl) as Hcount.
    cbn [length List.filter is_denied] in Hcount.
    rewrite Nat.add_0_r in Hcount. exact Hcount.
  - destruct (proj1 (cleanup_once_per_invocation record_only_plugin
                       group_event gate_raises_world (fun _ => fair_world)
                       "v.amr" disabled_service))
      as (o & t_try & t_cleanup & -> & _ & Htry & _ & Hcleanup & _).
    unfold trace_of. simpl. rewrite occurrences_app, Htry, Hcleanup.
    reflexivity.
Defined.

(** C7 at a failing speech-to-text provider. *)
Lemma empty_transcription_ends_invocation_witness :
  result_of
    (_process_voice_message replying_plugin private_event stt_down_world
       "v.amr" disabled_service) = Ok transcription_empty
  /\ occurrences is_history_append
       (trace_of
          (_process_voice_message replying_plugin private_event
             stt_down_world "v.amr" disabled_service)) = 0
  /\ occurrences is_reply_generator
       (trace_of
          (_process_voice_message replying_plugin private_event
             stt_down_world "v.amr" disabled_service)) = 0.
Proof.
  destruct (empty_transcription_ends_invocation replying_plugin private_event
              stt_down_world "v.amr" disabled_service (Some "/tmp/v.wav"))
    as (Hout & _ & _ & Happend & _ & _ & Hreply & _).
  - reflexivity.
  - reflexivity.
  - exact I.
  - done.
Defined.

(** C9 at a private chat: the conversation manager is down when the
    recording step asks, and the reply is requested all the same. *)
Lemma record_failure_is_contained_witness :
  result_of
    (record_voice_to_history_try private_event history_down_world "hello"
       disabled_service)
  = Raise (OtherException "database is locked")
  /\ result_of
       (_process_voice_message replying_plugin private_event
          history_down_world "v.amr" disabled_service) = Ok reply_emitted
  /\ occurrences is_decision
       (trace_of
          (_process_voice_message replying_plugin private_event
             history_down_world "v.amr" disabled_service)) = 1.
Proof.
  split; [reflexivity|].
  destruct (record_failure_is_contained replying_plugin private_event
              history_down_world "v.amr" disabled_service
              (Some "/tmp/v.wav") "hello"
              (OtherException "database is locked") eq_refl)
    as (t_rec & _ & _ & _ & Hrun).
  destruct (Hrun eq_refl eq_refl eq_refl ltac:(done)) as (t_cleanup & Heq).
  split; [|reflexivity].
  rewrite Heq. reflexivity.
Defined.

End Instances.

(** * Further properties of the reply service *)

Section ServiceQueries.

Variable float_of_str : string -> result float.

(** [float_gt_int] is monotone in the integer: what does not exceed [a]
    does not exceed a larger [b]. *)
Lemma float_gt_int_mono (f : float) (a b : Z) :
  (a <= b)%Z -> float_gt_int f a = false -> float_gt_int f b = false.
Proof.
  intros Hab. unfold float_gt_int.
  destruct (Prim2SF f) as [s|s| |s m e]; try done.
  - rewrite !Z.ltb_ge. lia.
  - cbv zeta. destruct (0 <=? e)%Z eqn:He; rewrite !Z.ltb_ge.
    + lia.
    + apply Z.leb_gt in He.
      assert (0 < 2 ^ (- e))%Z by (apply Z.pow_pos_nonneg; lia). nia.
Qed.

(** The sessions a swept store holds are fresh: a second collection finds
    nothing to remove. *)
Lemma sessions_to_remove_after_sweep (self : service) (age : Z)
    (now : float) :
  sessions_to_remove
    (_last_decision_time (snd (fst (cleanup_old_sessions self age now))))
    now age = [].
Proof.
  destruct (sessions_to_remove _ now age) as [|sid l] eqn:Hl; [done|].
  assert (sid ∈ sid :: l) as Hin by set_solver.
  rewrite <- Hl in Hin.
  apply elem_of_sessions_to_remove in Hin as (t & Hsid & Hage).
  rewrite lookup_cleanup_old_sessions in Hsid.
  destruct (_last_decision_time self !! sid) as [t0|]; [|done].
  destruct (float_gt_int (now - t0) age) eqn:Hage0; [done|].
  injection Hsid as <-. congruence.
Qed.

(** X1.  Raising the probability or lowering the draw never turns a reply
    into a refusal: with the policy enabled, a draw that replies at one
    probability replies, itself or any smaller draw, at every probability
    that is no smaller. *)
Theorem reply_monotone_in_probability
    (self self' : service) (sid sid' : option string)
    (r r' now now' : float) :
  truthy (enabled self) = true ->
  truthy (enabled self') = true ->
  (reply_probability self <=? reply_probability self')%float = true ->
  (r' <=? r)%float = true ->
  fst (should_generate_reply self sid r now) = true ->
  fst (should_generate_reply self' sid' r' now') = true.
Proof.
  unfold should_generate_reply. intros -> -> Hp Hr. simpl. intros Hreply.
  eapply float_leb_trans; [exact Hr|].
  eapply float_leb_trans; [exact Hreply|exact Hp].
Qed.

(** X2.  A reload never touches the session store and always installs
    the new configuration, even when it raises.  When it raises, the old
    probability stays in force; the enabled flag stays too if the
    [Chat_Reply] section is no dictionary (the exception is then
    [AttributeError]), and is already the new one if the exception comes
    from [float()]. *)
Theorem update_config_failure_is_partial
    (self : service) (cfg : gmap string pyval) :
  let r := update_config float_of_str self cfg in
  _last_decision_time (snd r) = _last_decision_time self
  /\ config (snd r) = cfg
  /\ forall e,
      fst r = Raise e ->
      reply_probability (snd r) = reply_probability self
      /\ match default (VDict ∅) (cfg !! "Chat_Reply") with
         | VDict d =>
             enabled (snd r)
             = default (VBool false) (d !! "Enable_Probabilistic_Reply")
         | _ => enabled (snd r) = enabled self /\ e = AttributeError
         end.
Proof.
  cbv zeta. unfold update_config, _load_config. simpl.
  destruct (default (VDict ∅) (cfg !! "Chat_Reply")) as [| | | | | |d];
    simpl.
  1-6: split; [done|]; split; [done|]; by intros e [= <-].
  destruct (py_float float_of_str _) as [p|e']; simpl.
  - split; [done|]. split; [done|]. by intros e.
  - split; [done|]. split; [done|]. by intros e _.
Qed.

(** X3.  Reloading the same configuration twice is the same as reloading
    it once, result and state. *)
Theorem update_config_idempotent
    (self : service) (cfg : gmap string pyval) :
  update_config float_of_str
    (snd (update_config float_of_str self cfg)) cfg
  = update_config float_of_str self cfg.
Proof.
  unfold update_config, _load_config. cbn [config set_config].
  destruct (default (VDict ∅) (cfg !! "Chat_Reply")) as [| | | | | |d] eqn:Hd;
    cbn [snd config set_config]; rewrite ?Hd; try done.
  destruct (py_float float_of_str _) as [p|e] eqn:Hp; reflexivity.
Qed.

(** X4.  A reload that succeeds puts in force the policy a fresh
    construction from the same configuration gives, whatever the policy
    was before; and it succeeds exactly when that construction does. *)
Theorem update_config_matches_construction
    (self : service) (cfg : gmap string pyval) :
  match __init__ float_of_str cfg with
  | Ok fresh =>
      update_config float_of_str self cfg
      = (Ok tt,
         mk_service cfg (enabled fresh) (reply_probability fresh)
           (_last_decision_time self))
      /\ config fresh = cfg
      /\ _last_decision_time fresh = ∅
  | Raise e => fst (update_config float_of_str self cfg) = Raise e
  end.
Proof.
  unfold __init__, update_config, _load_config. simpl.
  destruct (default (VDict ∅) (cfg !! "Chat_Reply")) as [| | | | | |d];
    simpl; try done.
  destruct (py_float _ _) as [p|e]; simpl; done.
Qed.

(** X5.  Construction and reload fail with [AttributeError] when the
    [Chat_Reply] section is present and no dictionary, and with
    [TypeError] when [Reply_Probability] is [None], a list or a
    dictionary; a float or a boolean is always accepted. *)
Theorem load_config_type_errors (cfg : gmap string pyval) :
  (forall v,
      cfg !! "Chat_Reply" = Some v ->
      (forall d, v <> VDict d) ->
      __init__ float_of_str cfg = Raise AttributeError
      /\ forall self,
          fst (update_config float_of_str self cfg) = Raise AttributeError)
  /\ (forall d v,
        cfg !! "Chat_Reply" = Some (VDict d) ->
        d !! "Reply_Probability" = Some v ->
        match v with
        | VNone | VList _ | VDict _ =>
            __init__ float_of_str cfg = Raise TypeError
            /\ forall self,
                fst (update_config float_of_str self cfg) = Raise TypeError
        | VFloat _ | VBool _ =>
            (exists fresh, __init__ float_of_str cfg = Ok fresh)
            /\ forall self,
                fst (update_config float_of_str self cfg) = Ok tt
        | _ => True
        end).
Proof.
  split.
  - intros v Hsec Hnodict.
    unfold __init__, update_config, _load_config. simpl. rewrite Hsec. simpl.
    destruct v; try done. by destruct (Hnodict d).
  - intros d v Hsec Hp.
    unfold __init__, update_config, _load_config. simpl.
    rewrite Hsec. simpl. rewrite Hp. simpl.
    destruct v; simpl; try done; eauto.
Qed.

(** X6.  A sweep only removes: every entry of the swept store is an entry
    of the store before.  Sweeping again at the same clock reading and
    age changes nothing and logs nothing. *)
Theorem cleanup_old_sessions_idempotent
    (self : service) (max_age_seconds : Z) (now : float) :
  let once := snd (fst (cleanup_old_sessions self max_age_seconds now)) in
  _last_decision_time once ⊆ _last_decision_time self
  /\ cleanup_old_sessions once max_age_seconds now = (VNone, once, []).
Proof.
  cbv zeta. split.
  - apply map_subseteq_spec. intros sid t.
    rewrite lookup_cleanup_old_sessions.
    destruct (_last_decision_time self !! sid) as [t0|]; [|done].
    by destruct (float_gt_int _ _).
  - unfold cleanup_old_sessions at 1.
    rewrite sessions_to_remove_after_sweep. reflexivity.
Qed.

(** X7.  A longer maximum age keeps at least what a shorter one keeps:
    every entry that survives the sweep with age [a] survives the sweep
    with any age [b >= a] at the same clock reading. *)
Theorem cleanup_old_sessions_monotone_in_age
    (self : service) (a b : Z) (now : float) :
  (a <= b)%Z ->
  _last_decision_time (snd (fst (cleanup_old_sessions self a now)))
  ⊆ _last_decision_time (snd (fst (cleanup_old_sessions self b now))).
Proof.
  intros Hab. apply map_subseteq_spec. intros sid t.
  rewrite !lookup_cleanup_old_sessions.
  destruct (_last_decision_time self !! sid) as [t0|]; [|done].
  destruct (float_gt_int (now - t0) a) eqn:Ha; [done|].
  by rewrite (float_gt_int_mono _ _ _ Hab Ha).
Qed.

(** X8.  [get_session_statistics] answers [None] exactly for a session
    without entry.  After a decision made for a non-empty session
    identifier under an enabled policy at clock reading [t], it reports
    that session with last decision time [t] and the float difference to
    the asking time, and answers for every other session as before. *)
Theorem get_session_statistics_after_decision
    (self : service) (sid : string) (r t now : float) :
  (forall other,
      get_session_statistics self other now = None
      <-> _last_decision_time self !! other = None)
  /\ (truthy (enabled self) = true ->
      sid <> "" ->
      let self' := snd (should_generate_reply self (Some sid) r t) in
      get_session_statistics self' sid now
      = Some (mk_session_statistics sid t (now - t)%float)
      /\ forall other,
          other <> sid ->
          get_session_statistics self' other now
          = get_session_statistics self other now).
Proof.
  split.
  - intros other. unfold get_session_statistics.
    by destruct (_last_decision_time self !! other).
  - intros Hen Hsid. cbv zeta.
    unfold should_generate_reply, get_session_statistics. rewrite Hen. simpl.
    destruct (String.eqb_spec sid ""); [done|]. simpl.
    rewrite lookup_insert_eq. split; [done|].
    intros other Hother. by rewrite lookup_insert_ne.
Qed.

(** X9.  The number of active sessions [get_service_status] reports
    grows by one with a decision that makes a new session known (policy
    enabled, identifier non-empty and without entry) and stays the same
    with any other decision; a sweep lowers it by exactly the count it
    writes to the debug log, and leaves it alone when it logs nothing. *)
Theorem active_sessions_accounting
    (format_1f : float -> string) (self : service) :
  (forall sid r now,
      active_sessions
        (get_service_status format_1f
           (snd (should_generate_reply self sid r now)))
      = if truthy (enabled self) && truthy_str sid
           && bool_decide (_last_decision_time self !! default "" sid = None)
        then S (active_sessions (get_service_status format_1f self))
        else active_sessions (get_service_status format_1f self))
  /\ (forall age now,
        let r := cleanup_old_sessions self age now in
        match snd r with
        | [] =>
            active_sessions (get_service_status format_1f (snd (fst r)))
            = active_sessions (get_service_status format_1f self)
        | DebugCleaned count :: _ =>
            active_sessions (get_service_status format_1f (snd (fst r)))
            + count
            = active_sessions (get_service_status format_1f self)
        end).
Proof.
  split.
  - intros sid r now. unfold get_service_status, should_generate_reply.
    simpl. destruct (truthy (enabled self)); simpl; [|done].
    destruct sid as [sid|]; simpl; [|done].
    destruct (negb (sid =? "")%string); simpl; [|done].
    destruct (_last_decision_time self !! sid) as [t|] eqn:Hsid.
    + rewrite bool_decide_eq_false_2 by done.
      by rewrite map_size_insert_Some.
    + rewrite bool_decide_eq_true_2 by done.
      by rewrite map_size_insert_None.
  - intros age now. cbv zeta.
    pose proof (length_sessions_to_remove self age now) as Hlen.
    pose proof (size_foldl_delete
      (sessions_to_remove (_last_decision_time self) now age)
      (_last_decision_time self)
      (NoDup_sessions_to_remove _ _ _)) as Hsize.
    unfold get_service_status, cleanup_old_sessions in *. simpl in *.
    destruct (sessions_to_remove _ _ _) as [|x l] eqn:Hl; simpl in *.
    + done.
    + rewrite <- Hsize; [lia|].
      intros k Hk. rewrite <- Hl in Hk.
      apply elem_of_sessions_to_remove in Hk as (t & Hk & _). by exists t.
Qed.

(** X10.  The strategy [get_reply_strategy_info] reports is the one
    [should_generate_reply] follows: it is [always_reply] or
    [probabilistic]; under [always_reply] every call replies and leaves
    the service as it is, under [probabilistic] the verdict is the
    comparison of the draw with the reported probability. *)
Theorem strategy_info_matches_behaviour
    (format_1f : float -> string) (self : service) :
  let info := get_reply_strategy_info format_1f self in
  (strategy_type info = "always_reply"
   \/ strategy_type info = "probabilistic")
  /\ (strategy_type info = "always_reply" ->
      forall sid r now, should_generate_reply self sid r now = (true, self))
  /\ (strategy_type info = "probabilistic" ->
      forall sid r now,
        fst (should_generate_reply self sid r now)
        = (r <=? info_reply_probability info)%float).
Proof.
  cbv zeta. unfold get_reply_strategy_info, should_generate_reply. simpl.
  destruct (truthy (enabled self)); simpl.
  - split; [by right|]. split; [done|]. done.
  - split; [by left|]. split; [done|]. done.
Qed.

End ServiceQueries.

(** * Further properties of the voice pipeline *)

(** Case analysis on whatever a run still branches on. *)
Ltac branch_step :=
  match goal with
  | |- context [match ?x with _ => _ end] =>
      lazymatch x with
      | context [match _ with _ => _ end] => fail
      | _ => destruct x eqn:?
      end
  end.

Ltac branch_all := repeat (simpl; branch_step); simpl.

Section GateAndReply.

Variable self : plugin.
Variable event_ : AstrMessageEvent.
Variable world : env.

(** What the group gate and the reply stage do, in every world: each of
    their calls is made at most once, and the result, the trace and the
    state of the reply service determine one another. *)
Lemma gate_and_reply_run (text : string) (s : service) :
  let run := gate_and_reply self event_ world text s in
  let decision :=
    should_generate_reply s (Some (unified_msg_origin event_))
      (random_random world) (decision_time world) in
  let t := trace_of run in
  (occurrences is_gate_check t <= 1
   /\ occurrences is_stop_event t <= 1
   /\ occurrences is_reply_check t <= 1
   /\ occurrences is_decision t <= 1
   /\ occurrences is_request_llm t <= 1
   /\ occurrences is_yield t <= 1)
  /\ (occurrences is_stop_event t = 1 <-> result_of run = Ok recorded_only)
  /\ (occurrences is_yield t = 1 <-> result_of run = Ok reply_emitted)
  /\ (occurrences is_stop_event t = 1 ->
      occurrences is_reply_check t = 0
      /\ occurrences is_decision t = 0
      /\ occurrences is_reply_generator t = 0)
  /\ (occurrences is_decision t = 0 -> state_of run = s)
  /\ (occurrences is_decision t = 1 ->
      state_of run = snd decision
      /\ truthy (enable_chat_reply self) = true
      /\ can_generate_reply world = Ok true)
  /\ (0 < occurrences is_reply_generator t ->
      occurrences is_decision t = 1 /\ fst decision = true)
  /\ (result_of run = Ok reply_skipped <->
      occurrences is_decision t = 1 /\ fst decision = false)
  /\ result_of run <> Ok file_error
  /\ result_of run <> Ok transcription_empty
  /\ result_of run <> Ok permission_denied.
Proof.
  cbv zeta.
  unfold gate_and_reply, group_record_only, reply_stage,
    _generate_intelligent_reply, call_should_generate_reply, try_except,
    bind, invoke, ret, result_of, state_of, trace_of, occurrences.
  branch_all.
  all: repeat split; intros; simpl in *; try discriminate; try lia;
    try done; try congruence.
Qed.

(** Which calls the gate and the reply stage make, and with what. *)
Lemma gate_and_reply_calls (text : string) (s : service) :
  let t := trace_of (gate_and_reply self event_ world text s) in
  (occurrences is_gate_check t = 1 <-> group_record_only_mode self event_)
  /\ (occurrences is_stop_event t = 1 <->
      group_record_only_mode self event_
      /\ gate_can_process_voice world = Ok true)
  /\ (occurrences is_yield t = 1 ->
      occurrences is_request_llm t = 1
      /\ get_using_provider world = Ok true
      /\ request_llm world = Ok tt)
  /\ (get_using_provider world <> Ok true ->
      occurrences is_request_llm t = 0
      /\ occurrences is_yield t = 0
      /\ occurrences is_reply_conversation_lookup t = 0)
  /\ (forall prompt cid conv,
        In (at_generate_intelligent_reply, RequestLlm prompt cid conv) t ->
        prompt = String.append "用户通过语音说了: " text
        /\ reply_get_curr_conversation_id world = Ok cid
        /\ (if truthy_str cid then reply_get_conversation world = Ok conv
            else conv = None))
  /\ (forall sid,
        In (at_process_voice_message, ShouldGenerateReply sid) t ->
        sid = unified_msg_origin event_).
Proof.
  cbv zeta.
  unfold gate_and_reply, group_record_only, reply_stage,
    _generate_intelligent_reply, call_should_generate_reply, try_except,
    bind, invoke, ret, result_of, state_of, trace_of, occurrences,
    group_record_only_mode, is_False.
  destruct (get_message_type event_) eqn:Htype.
  all: branch_all.
  all: repeat split; intros; simpl in *; try discriminate; try lia;
    try done; try congruence.
  all: repeat match goal with
         | b : bool |- _ => destruct b
         | u : unit |- _ => destruct u
         end; simpl in *; try discriminate; try done; try congruence.
  all: intuition (simplify_eq; simpl in *;
                  repeat match goal with
                    | H : truthy_str _ = _ |- _ => rewrite H
                    end;
                  try congruence; try done).
Qed.

End GateAndReply.

Section InvocationShape.

Variable self : plugin.
Variable event_ : AstrMessageEvent.
Variable world : env.

(** The calls of the cleanup are its own. *)
Lemma cleanup_resources_foreign (s : service) :
  let t := trace_of (_cleanup_resources world s) in
  occurrences is_pipeline_entry t = 0
  /\ occurrences is_transcription t = 0
  /\ occurrences is_record_step t = 0
  /\ occurrences is_new_conversation t = 0
  /\ occurrences is_history_append t = 0
  /\ occurrences is_gate_check t = 0
  /\ occurrences is_stop_event t = 0
  /\ occurrences is_reply_check t = 0
  /\ occurrences is_decision t = 0
  /\ occurrences is_reply_generator t = 0
  /\ occurrences is_request_llm t = 0
  /\ occurrences is_yield t = 0.
Proof.
  cbv zeta. repeat split.
  all: by apply never_cleanup_resources.
Qed.

(** The calls of the recording step are its own. *)
Lemma record_voice_to_history_foreign (text : string) (s : service) :
  let t := trace_of (_record_voice_to_history event_ world text s) in
  occurrences is_pipeline_entry t = 0
  /\ occurrences is_transcription t = 0
  /\ occurrences is_gate_check t = 0
  /\ occurrences is_stop_event t = 0
  /\ occurrences is_reply_check t = 0
  /\ occurrences is_decision t = 0
  /\ occurrences is_reply_generator t = 0
  /\ occurrences is_request_llm t = 0
  /\ occurrences is_yield t = 0
  /\ occurrences is_cleanup t = 0
  /\ occurrences is_sweep t = 0.
Proof.
  cbv zeta. repeat split.
  all: by apply never_record_voice_to_history.
Qed.

(** The gate and the reply stage make no call of the other stages. *)
Lemma gate_and_reply_foreign (text : string) (s : service) :
  let t := trace_of (gate_and_reply self event_ world text s) in
  occurrences is_pipeline_entry t = 0
  /\ occurrences is_transcription t = 0
  /\ occurrences is_record_step t = 0
  /\ occurrences is_new_conversation t = 0
  /\ occurrences is_history_append t = 0
  /\ occurrences is_cleanup t = 0
  /\ occurrences is_sweep t = 0.
Proof.
  cbv zeta. repeat split.
  all: match goal with
       | |- occurrences ?p _ = 0 =>
           assert (never p (gate_and_reply self event_ world text)) as Hn
             by never_pipeline; apply Hn
       end.
Qed.

(** Every invocation takes one of three courses: no file, no transcript,
    or the recording step followed by the gate and the reply stage; the
    cleanup closes each. *)
Lemma process_voice_message_shape (voice : string) (s : service) :
  exists t_cleanup,
    _cleanup_resources world
      (state_of (try_except
                   (process_voice_message_body self event_ world voice)
                   (fun _ => ret error) s))
    = (Ok tt,
       state_of (_process_voice_message self event_ world voice s),
       t_cleanup)
    /\ ((file_yields_nothing world
         /\ _process_voice_message self event_ world voice s
            = (Ok file_error, service_after_cleanup world s,
               [(at_process_voice_file, ProcessVoiceFile voice)]
               ++ t_cleanup))
        \/ (exists path,
              process_voice_file world = Ok (Some path)
              /\ path <> ""
              /\ transcription_yields_nothing world
              /\ _process_voice_message self event_ world voice s
                 = (Ok transcription_empty, service_after_cleanup world s,
                    [(at_process_voice_file, ProcessVoiceFile voice);
                     (at_transcribe_voice, TranscribeAudio path)]
                    ++ t_cleanup))
        \/ (exists path text t_rec,
              process_voice_file world = Ok (Some path)
              /\ path <> ""
              /\ transcribe_audio world = Ok (Some text)
              /\ text <> ""
              /\ _record_voice_to_history event_ world text s
                 = (Ok tt, s, t_rec)
              /\ _process_voice_message self event_ world voice s
                 = (Ok (outcome_of
                          (result_of
                             (gate_and_reply self event_ world text s))),
                    service_after_cleanup world
                      (state_of (gate_and_reply self event_ world text s)),
                    [(at_process_voice_file, ProcessVoiceFile voice);
                     (at_transcribe_voice, TranscribeAudio path)]
                    ++ t_rec
                    ++ trace_of (gate_and_reply self event_ world text s)
                    ++ t_cleanup))).
Proof.
  unfold _process_voice_message, try_finally, process_voice_message_body,
    _process_voice_file, _transcribe_voice, after_transcription,
    file_yields_nothing, transcription_yields_nothing,
    try_except, bind, invoke, ret, state_of.
  destruct (process_voice_file world) as [[path|]|e1]; simpl.
  2,3: destruct (cleanup_resources_run world s) as (t & -> & _);
    exists t; simpl; split; [done|]; by left.
  destruct (String.eqb_spec path "") as [->|Hpath]; simpl.
  { destruct (cleanup_resources_run world s) as (t & -> & _).
    exists t. simpl. split; [done|]. by left. }
  destruct (transcribe_audio world) as [[text|]|e2]; simpl.
  2,3: destruct (cleanup_resources_run world s) as (t & -> & _);
    exists t; simpl; split; [done|]; right; left; exists path;
    rewrite ?Hpath; done.
  destruct (String.eqb_spec text "") as [->|Htext]; simpl.
  { destruct (cleanup_resources_run world s) as (t & -> & _).
    exists t. simpl. split; [done|]. right. left. by exists path. }
  destruct (record_voice_to_history_run event_ world text s)
    as (t_rec & Hrec & _).
  fold (_record_voice_to_history event_ world text).
  rewrite Hrec.
  destruct (gate_and_reply self event_ world text s) as [[r s1] t1] eqn:Hgr;
    simpl.
  destruct (cleanup_resources_run world s1) as (t & Hrun & _).
  exists t. destruct r as [o|e]; simpl; rewrite Hrun; simpl.
  all: split; [done|]; right; right; exists path, text, t_rec.
  all: rewrite Hgr, ?app_nil_r, <- ?app_assoc; done.
Qed.

End InvocationShape.

Section InvocationSummary.

Variable self : plugin.
Variable event_ : AstrMessageEvent.
Variable world : env.

(** What an invocation does, in every world. *)
Lemma invocation_summary (voice : string) (s : service) :
  let run := _process_voice_message self event_ world voice s in
  let decision := pipeline_decision event_ world s in
  let t := trace_of run in
  (occurrences is_pipeline_entry t = 1
   /\ occurrences is_transcription t <= 1
   /\ occurrences is_record_step t <= 1
   /\ occurrences is_history_append t <= 1
   /\ occurrences is_gate_check t <= 1
   /\ occurrences is_stop_event t <= 1
   /\ occurrences is_reply_check t <= 1
   /\ occurrences is_decision t <= 1
   /\ occurrences is_request_llm t <= 1
   /\ occurrences is_yield t <= 1)
  /\ (occurrences is_transcription t = 0 <-> result_of run = Ok file_error)
  /\ (occurrences is_transcription t = 0 <-> file_yields_nothing world)
  /\ (occurrences is_record_step t = 0 <->
      result_of run = Ok file_error
      \/ result_of run = Ok transcription_empty)
  /\ (occurrences is_stop_event t = 1 <-> result_of run = Ok recorded_only)
  /\ (occurrences is_yield t = 1 <-> result_of run = Ok reply_emitted)
  /\ (result_of run = Ok reply_skipped <->
      occurrences is_decision t = 1 /\ fst decision = false)
  /\ (occurrences is_stop_event t = 1 ->
      occurrences is_reply_check t = 0
      /\ occurrences is_decision t = 0
      /\ occurrences is_reply_generator t = 0)
  /\ (occurrences is_record_step t = 0 ->
      occurrences is_history_append t = 0
      /\ occurrences is_gate_check t = 0
      /\ occurrences is_stop_event t = 0
      /\ occurrences is_reply_check t = 0
      /\ occurrences is_decision t = 0
      /\ occurrences is_reply_generator t = 0)
  /\ (occurrences is_decision t = 0 ->
      state_of run = service_after_cleanup world s)
  /\ (occurrences is_decision t = 1 ->
      state_of run = service_after_cleanup world (snd decision)
      /\ truthy (enable_chat_reply self) = true
      /\ can_generate_reply world = Ok true)
  /\ (0 < occurrences is_reply_generator t ->
      occurrences is_decision t = 1 /\ fst decision = true).
Proof.
  cbv zeta.
  destruct (process_voice_message_shape self event_ world voice s)
    as (t_c & Hclean & Hshape).
  pose proof (cleanup_resources_foreign world
                (state_of
                   (try_except
                      (process_voice_message_body self event_ world voice)
                      (fun _ => ret error) s))) as Hforeign.
  cbv zeta in Hforeign. rewrite Hclean in Hforeign.
  unfold trace_of in Hforeign. simpl in Hforeign.
  destruct Hforeign
    as (Hc1 & Hc2 & Hc3 & Hc4 & Hc5 & Hc6 & Hc7 & Hc8 & Hc9 & Hc10 & Hc11
        & Hc12).
  clear Hclean.
  destruct Hshape as [[Hfile ->]|[(path & Hfile & Hpath & Htr & ->)
                     |(path & text & t_rec & Hfile & Hpath & Htr & Htext
                       & Hrec & ->)]].
  - unfold result_of, state_of, trace_of. simpl.
    repeat (rewrite ?occurrences_cons, ?occurrences_app, ?occurrences_nil;
            simpl).
    repeat split; intros; try done; try lia; try discriminate; auto.
    all: try (destruct H; discriminate).
  - assert (~ file_yields_nothing world) as Hnofile.
    { unfold file_yields_nothing. rewrite Hfile. simpl.
      by destruct (String.eqb_spec path ""). }
    unfold result_of, state_of, trace_of. simpl.
    repeat (rewrite ?occurrences_cons, ?occurrences_app, ?occurrences_nil;
            simpl).
    repeat split; intros; try done; try lia; try discriminate; auto.
    all: try (destruct H; discriminate).
  - assert (~ file_yields_nothing world) as Hnofile.
    { unfold file_yields_nothing. rewrite Hfile. simpl.
      by destruct (String.eqb_spec path ""). }
    pose proof (record_voice_to_history_foreign event_ world text s) as Hr.
    cbv zeta in Hr. rewrite Hrec in Hr. unfold trace_of in Hr. simpl in Hr.
    destruct Hr as (Hr1 & Hr2 & Hr3 & Hr4 & Hr5 & Hr6 & Hr7 & Hr8 & Hr9
                    & Hr10 & Hr11).
    destruct (record_voice_to_history_run event_ world text s)
      as (t_rec' & Hrec' & _ & Hstep & Happend & _).
    rewrite Hrec in Hrec'. injection Hrec' as <-.
    pose proof (gate_and_reply_foreign self event_ world text s) as Hg.
    pose proof (gate_and_reply_run self event_ world text s) as Hgr.
    cbv zeta in Hg, Hgr. fold (pipeline_decision event_ world s) in Hgr.
    destruct (pipeline_decision event_ world s) as [verdict s_dec].
    destruct (gate_and_reply self event_ world text s) as [[r s1] t1].
    unfold result_of, state_of, trace_of in *. simpl in *.
    destruct Hg as (Hg1 & Hg2 & Hg3 & Hg4 & Hg5 & Hg6 & Hg7).
    destruct Hgr as ((Hl1 & Hl2 & Hl3 & Hl4 & Hl5 & Hl6) & Hstop & Hyield
                     & Hstop' & Hd0 & Hd1 & Hrg & Hskip & Hno1 & Hno2 & _).
    repeat (rewrite ?occurrences_cons, ?occurrences_app, ?occurrences_nil;
            simpl).
    rewrite ?Hc1, ?Hc2, ?Hc3, ?Hc4, ?Hc5, ?Hc6, ?Hc7, ?Hc8, ?Hc9, ?Hc10,
      ?Hc11, ?Hc12, ?Hr1, ?Hr2, ?Hr3, ?Hr4, ?Hr5, ?Hr6, ?Hr7, ?Hr8, ?Hr9,
      ?Hg1, ?Hg2, ?Hg3, ?Hg4, ?Hg5, ?Hstep, ?Nat.add_0_r, ?Nat.add_0_l.
    destruct r as [o|e]; simpl in *.
    all: repeat split; intros; try lia; try discriminate; try done.
    all: try (exfalso; congruence).
    all: intuition (subst; try congruence; try lia).
Qed.

End InvocationSummary.

Section InvocationCalls.

Variable self : plugin.
Variable event_ : AstrMessageEvent.
Variable world : env.

Lemma occurrences_In (p : event -> bool) (e : event) (t : list event) :
  In e t -> p e = true -> 0 < occurrences p t.
Proof.
  intros Hin Hp. unfold occurrences.
  assert (In e (List.filter p t)) as Hf by (apply filter_In; done).
  destruct (List.filter p t); [done|simpl; lia].
Qed.

(** Which calls an invocation makes, and with what. *)
Lemma invocation_calls (voice : string) (s : service) :
  let t := trace_of (_process_voice_message self event_ world voice s) in
  (occurrences is_gate_check t = 1 <->
   occurrences is_record_step t = 1 /\ group_record_only_mode self event_)
  /\ (occurrences is_stop_event t = 1 <->
      occurrences is_record_step t = 1
      /\ group_record_only_mode self event_
      /\ gate_can_process_voice world = Ok true)
  /\ (occurrences is_yield t = 1 ->
      occurrences is_request_llm t = 1
      /\ get_using_provider world = Ok true
      /\ request_llm world = Ok tt)
  /\ (get_using_provider world <> Ok true ->
      occurrences is_request_llm t = 0
      /\ occurrences is_yield t = 0
      /\ occurrences is_reply_conversation_lookup t = 0)
  /\ (forall prompt cid conv,
        In (at_generate_intelligent_reply, RequestLlm prompt cid conv) t ->
        exists text,
          transcribe_audio world = Ok (Some text)
          /\ prompt = String.append "用户通过语音说了: " text
          /\ reply_get_curr_conversation_id world = Ok cid
          /\ (if truthy_str cid then reply_get_conversation world = Ok conv
              else conv = None))
  /\ (forall sid,
        In (at_process_voice_message, ShouldGenerateReply sid) t ->
        sid = unified_msg_origin event_).
Proof.
  cbv zeta.
  destruct (process_voice_message_shape self event_ world voice s)
    as (t_c & Hclean & Hshape).
  pose proof (cleanup_resources_foreign world
                (state_of
                   (try_except
                      (process_voice_message_body self event_ world voice)
                      (fun _ => ret error) s))) as Hforeign.
  cbv zeta in Hforeign. rewrite Hclean in Hforeign.
  unfold trace_of in Hforeign. simpl in Hforeign.
  destruct Hforeign
    as (Hc1 & Hc2 & Hc3 & Hc4 & Hc5 & Hc6 & Hc7 & Hc8 & Hc9 & Hc10 & Hc11
        & Hc12).
  assert (occurrences is_reply_conversation_lookup t_c = 0) as Hc13.
  { pose proof (never_cleanup_resources world is_reply_conversation_lookup
                  (fun c => eq_refl)
                  (state_of
                     (try_except
                        (process_voice_message_body self event_ world voice)
                        (fun _ => ret error) s))) as Hn.
    by rewrite Hclean in Hn. }
  clear Hclean.
  assert (forall e, In e t_c -> is_request_llm e = true -> False) as Hin_c1.
  { intros e Hin He. pose proof (occurrences_In _ _ _ Hin He). lia. }
  assert (forall e, In e t_c -> is_decision e = true -> False) as Hin_c2.
  { intros e Hin He. pose proof (occurrences_In _ _ _ Hin He). lia. }
  destruct Hshape as [[Hfile ->]|[(path & Hfile & Hpath & Htr & ->)
                     |(path & text & t_rec & Hfile & Hpath & Htr & Htext
                       & Hrec & ->)]].
  1,2: unfold trace_of; simpl;
    repeat (rewrite ?occurrences_cons, ?occurrences_app, ?occurrences_nil;
            simpl);
    rewrite ?Hc3, ?Hc6, ?Hc7, ?Hc11, ?Hc12, ?Hc13;
    repeat split; intros; try lia; try done;
    repeat match goal with
      | H : _ /\ _ |- _ => destruct H
      | H : _ \/ _ |- _ => destruct H
      end; try lia; try discriminate; exfalso; eauto.
  pose proof (record_voice_to_history_foreign event_ world text s) as Hr.
  cbv zeta in Hr. rewrite Hrec in Hr. unfold trace_of in Hr. simpl in Hr.
  destruct Hr as (Hr1 & Hr2 & Hr3 & Hr4 & Hr5 & Hr6 & Hr7 & Hr8 & Hr9
                  & Hr10 & Hr11).
  assert (occurrences is_reply_conversation_lookup t_rec = 0) as Hr12.
  { pose proof (never_record_voice_to_history event_ world
                  is_reply_conversation_lookup text (fun c => eq_refl) s)
      as Hn.
    by rewrite Hrec in Hn. }
  assert (forall e, In e t_rec -> is_request_llm e = true -> False)
    as Hin_r1.
  { intros e Hin He. pose proof (occurrences_In _ _ _ Hin He). lia. }
  assert (forall e, In e t_rec -> is_decision e = true -> False) as Hin_r2.
  { intros e Hin He. pose proof (occurrences_In _ _ _ Hin He). lia. }
  destruct (record_voice_to_history_run event_ world text s)
    as (t_rec' & Hrec' & _ & Hstep & _).
  rewrite Hrec in Hrec'. injection Hrec' as <-.
  pose proof (gate_and_reply_foreign self event_ world text s) as Hg.
  pose proof (gate_and_reply_calls self event_ world text s) as Hgc.
  cbv zeta in Hg, Hgc.
  unfold trace_of in *. simpl in *.
  destruct Hg as (Hg1 & Hg2 & Hg3 & Hg4 & Hg5 & Hg6 & Hg7).
  destruct Hgc as (Hk1 & Hk2 & Hk3 & Hk4 & Hk5 & Hk6).
  repeat (rewrite ?occurrences_cons, ?occurrences_app, ?occurrences_nil;
          simpl).
  rewrite ?Hc3, ?Hc6, ?Hc7, ?Hc11, ?Hc12, ?Hc13, ?Hr3, ?Hr4, ?Hr8, ?Hr9,
    ?Hr12, ?Hg3, ?Hstep, ?Nat.add_0_r, ?Nat.add_0_l.
  split; [tauto|]. split; [tauto|]. split; [tauto|]. split; [tauto|].
  split.
  - intros prompt cid conv [Hin|[Hin|Hin]]; [done|done|].
    apply in_app_or in Hin as [Hin|Hin]; [by destruct (Hin_r1 _ Hin)|].
    apply in_app_or in Hin as [Hin|Hin]; [|by destruct (Hin_c1 _ Hin)].
    exists text. split; [done|]. by apply Hk5.
  - intros sid [Hin|[Hin|Hin]]; [done|done|].
    apply in_app_or in Hin as [Hin|Hin]; [by destruct (Hin_r2 _ Hin)|].
    apply in_app_or in Hin as [Hin|Hin]; [|by destruct (Hin_c2 _ Hin)].
    by apply Hk6.
Qed.

End InvocationCalls.

Section RecordingStep.

Variable event_ : AstrMessageEvent.
Variable world : env.

(** X11.  The recording step asks the manager for a new conversation
    exactly when the manager reports no current one ([None] or an empty
    id), and whatever it hands to [update_conversation] is addressed to
    the event's own session, under the current id or else the new one,
    and consists of the history it loaded (empty when the conversation or
    its history is missing) followed by the one entry for the
    transcript. *)
Theorem record_step_appends_to_loaded_history (text : string) (s : service) :
  let t := trace_of (_record_voice_to_history event_ world text s) in
  (occurrences is_new_conversation t = 1 <->
   exists cur,
     rec_get_curr_conversation_id world = Ok cur /\ truthy_str cur = false)
  /\ (occurrences is_new_conversation t = 0
      \/ occurrences is_new_conversation t = 1)
  /\ forall umo cid new_history,
      In (at_record_voice_to_history, UpdateConversation umo cid new_history)
        t ->
      umo = unified_msg_origin event_
      /\ (exists cur,
            rec_get_curr_conversation_id world = Ok cur
            /\ if truthy_str cur then cid = cur
               else rec_new_conversation world = Ok cid)
      /\ exists loaded,
          new_history = loaded ++ [voice_message text]
          /\ match rec_get_conversation world with
             | Ok (Some c) =>
                 if truthy_str (history c)
                 then match history c with
                      | Some h => json_loads world h = Ok loaded
                      | None => loaded = []
                      end
                 else loaded = []
             | Ok None => loaded = []
             | Raise _ => False
             end.
Proof.
  cbv zeta.
  unfold _record_voice_to_history, record_voice_to_history_try, load_history,
    try_except, bind, invoke, ret, of_result, trace_of, occurrences.
  destruct (rec_get_curr_conversation_id world) as [cur|e1] eqn:Hcur.
  2: { simpl. split; [|split; [by left|]].
       - split; [done|]. by intros (cur & [=] & _).
       - intros umo cid h [[=]|[]]. }
  destruct (truthy_str cur) eqn:Htruthy; cbn [negb].
  2: destruct (rec_new_conversation world) as [new|e2] eqn:Hnew.
  all: destruct (rec_get_conversation world) as [[c|]|e3] eqn:Hconv.
  all: try destruct (truthy_str (history c)) eqn:Hh.
  all: try destruct (history c) as [h|] eqn:Hhist.
  all: try destruct (json_loads world h) as [loaded|e4] eqn:Hloaded.
  all: destruct (rec_update_conversation world) as [[]|e5] eqn:Hupd.
  all: simpl.
  all: split;
    [split;
       [intros; try lia; try done; exists cur; done
       |intros (cur' & Hcur' & Hfalse); simplify_eq; try done; congruence]
    |split; [first [by left | by right]|]].
  all: intros umo cid nh Hin;
    repeat match goal with
      | H : _ \/ _ |- _ => destruct H
      | H : False |- _ => destruct H
      end; simplify_eq.
  all: split; [done|]; split;
    [eexists; split; [reflexivity|]; rewrite Htruthy; done|].
  all: first [exists loaded; split; [done|]; done
             |exists []; split; [done|]; done].
Qed.

End RecordingStep.

Section InvocationProperties.

Variable self : plugin.
Variable event_ : AstrMessageEvent.
Variable world : env.

(** No entry that survives a sweep is older than the maximum age. *)
Lemma service_after_cleanup_fresh (s : service) (sid : string) (t : float) :
  cleanup_resources world = Ok tt ->
  _last_decision_time (service_after_cleanup world s) !! sid = Some t ->
  float_gt_int (cleanup_time world - t)%float default_max_age = false.
Proof.
  unfold service_after_cleanup. intros ->.
  rewrite lookup_cleanup_old_sessions.
  destruct (_last_decision_time s !! sid) as [t0|]; [|done].
  destruct (float_gt_int _ _) eqn:Hage; [done|]. by intros [= <-].
Qed.

(** The cleanup leaves the policy alone, and treats alike two stores that
    agree on a session. *)
Lemma service_after_cleanup_frame (s s' : service) :
  config (service_after_cleanup world s) = config s
  /\ enabled (service_after_cleanup world s) = enabled s
  /\ reply_probability (service_after_cleanup world s) = reply_probability s
  /\ forall sid,
      _last_decision_time s !! sid = _last_decision_time s' !! sid ->
      _last_decision_time (service_after_cleanup world s) !! sid
      = _last_decision_time (service_after_cleanup world s') !! sid.
Proof.
  unfold service_after_cleanup.
  destruct (cleanup_resources world); [|done].
  repeat split; try done.
  intros sid Hsid. rewrite !lookup_cleanup_old_sessions. by rewrite Hsid.
Qed.

(** A decision leaves the policy and the other sessions alone. *)
Lemma should_generate_reply_frame (s : service) (sid : string)
    (r now : float) :
  let s' := snd (should_generate_reply s (Some sid) r now) in
  config s' = config s
  /\ enabled s' = enabled s
  /\ reply_probability s' = reply_probability s
  /\ forall other,
      other <> sid ->
      _last_decision_time s' !! other = _last_decision_time s !! other.
Proof.
  cbv zeta. unfold should_generate_reply.
  destruct (truthy (enabled s)); simpl; [|done].
  destruct (negb (sid =? "")%string); simpl; [|done].
  repeat split; try done.
  intros other Hother. by rewrite lookup_insert_ne.
Qed.

(** X12.  When preparing the voice file gives no path (the processing
    service raises, or answers [None] or an empty string), the invocation
    calls neither the speech-to-text service nor the conversation
    manager, stops no event, asks for no decision and no reply; the
    cleanup runs once and the reply service is only swept. *)
Theorem missing_file_ends_invocation (voice : string) (s : service) :
  file_yields_nothing world ->
  let run := _process_voice_message self event_ world voice s in
  result_of run = Ok file_error
  /\ state_of run = service_after_cleanup world s
  /\ occurrences is_transcription (trace_of run) = 0
  /\ occurrences is_record_step (trace_of run) = 0
  /\ occurrences is_history_append (trace_of run) = 0
  /\ occurrences is_stop_event (trace_of run) = 0
  /\ occurrences is_decision (trace_of run) = 0
  /\ occurrences is_reply_generator (trace_of run) = 0
  /\ occurrences is_cleanup (trace_of run) = 1.
Proof.
  intros Hfile. cbv zeta.
  destruct (invocation_summary self event_ world voice s)
    as (_ & Hfe & Hnofile & Hrec & _ & _ & _ & _ & Hnone & Hstate & _).
  destruct (process_voice_message_run self event_ world voice s)
    as (o & s1 & t1 & t2 & _ & _ & Hrun & Hc1 & _ & _ & Hc2 & _).
  apply Hnofile in Hfile as Htr. apply Hfe in Htr as Hres.
  assert (occurrences is_record_step
            (trace_of (_process_voice_message self event_ world voice s))
          = 0) as Hstep by (apply Hrec; by left).
  destruct (Hnone Hstep) as (Ha & _ & Hs & _ & Hd & Hg).
  repeat split; try done.
  - by apply Hstate.
  - rewrite Hrun. unfold trace_of. simpl. rewrite occurrences_app. lia.
Qed.

(** X13.  In every invocation, whatever the collaborators answer, each
    of these happens at most once: transcription, the recording step,
    the history update, the stopping of the event, the decision, the
    request to the LLM, the handing over of a reply.  Stopping the event
    excludes both a decision and a reply; the voice file is asked for and
    the cleanup run exactly once. *)
Theorem invocation_calls_at_most_once (voice : string) (s : service) :
  let t := trace_of (_process_voice_message self event_ world voice s) in
  occurrences is_pipeline_entry t = 1
  /\ occurrences is_transcription t <= 1
  /\ occurrences is_record_step t <= 1
  /\ occurrences is_history_append t <= 1
  /\ occurrences is_stop_event t <= 1
  /\ occurrences is_decision t <= 1
  /\ occurrences is_request_llm t <= 1
  /\ occurrences is_yield t <= 1
  /\ occurrences is_stop_event t + occurrences is_decision t <= 1
  /\ occurrences is_stop_event t + occurrences is_yield t <= 1
  /\ occurrences is_cleanup t = 1.
Proof.
  cbv zeta.
  destruct (invocation_summary self event_ world voice s)
    as ((He & Htr & Hrec & Happ & _ & Hstop & _ & Hdec & Hreq & Hyield)
        & _ & _ & _ & Hstop1 & Hyield1 & _ & Hexcl & _).
  destruct (process_voice_message_run self event_ world voice s)
    as (o & s1 & t1 & t2 & _ & _ & Hrun & Hc1 & _ & _ & Hc2 & _).
  assert (occurrences is_cleanup
            (trace_of (_process_voice_message self event_ world voice s))
          = 1) as Hclean.
  { rewrite Hrun. unfold trace_of. simpl. rewrite occurrences_app. lia. }
  assert (occurrences is_stop_event
            (trace_of (_process_voice_message self event_ world voice s)) = 1
          -> occurrences is_yield
               (trace_of (_process_voice_message self event_ world voice s))
             = 0) as Hsy.
  { intros Hs. apply Hstop1 in Hs as Hres.
    destruct (Nat.eq_dec
                (occurrences is_yield
                   (trace_of
                      (_process_voice_message self event_ world voice s)))
                1) as [Hy|Hy]; [|lia].
    apply Hyield1 in Hy. congruence. }
  repeat split; try done.
  - destruct (Nat.eq_dec
                (occurrences is_stop_event
                   (trace_of
                      (_process_voice_message self event_ world voice s)))
                1) as [Hs|Hs]; [|lia].
    destruct (Hexcl Hs) as (_ & Hd & _). lia.
  - destruct (Nat.eq_dec
                (occurrences is_stop_event
                   (trace_of
                      (_process_voice_message self event_ world voice s)))
                1) as [Hs|Hs]; [|lia].
    specialize (Hsy Hs). lia.
Qed.

(** X14.  A reply is handed over only after the recording step ran, chat
    reply is on, [can_generate_reply] answered [True], the reply service
    decided to reply, an LLM provider was found and [request_llm]
    returned; the event was then not stopped. *)
Theorem reply_needs_record_and_decision (voice : string) (s : service) :
  let t := trace_of (_process_voice_message self event_ world voice s) in
  occurrences is_yield t = 1 ->
  occurrences is_record_step t = 1
  /\ truthy (enable_chat_reply self) = true
  /\ can_generate_reply world = Ok true
  /\ occurrences is_decision t = 1
  /\ fst (pipeline_decision event_ world s) = true
  /\ get_using_provider world = Ok true
  /\ occurrences is_request_llm t = 1
  /\ request_llm world = Ok tt
  /\ occurrences is_stop_event t = 0.
Proof.
  cbv zeta. intros Hyield.
  destruct (invocation_summary self event_ world voice s)
    as ((_ & _ & Hrec1 & _ & _ & Hstop1 & _) & _ & _ & Hrec & Hstop & Hy
        & _ & Hexcl & Hnone & _ & Hd1 & Hrg).
  destruct (invocation_calls self event_ world voice s)
    as (_ & _ & Hcalls & _).
  destruct (Hcalls Hyield) as (Hreq & Hprov & Hllm).
  assert (0 < occurrences is_reply_generator
                (trace_of
                   (_process_voice_message self event_ world voice s)))
    as Hgen.
  { unfold occurrences in *.
    assert (forall t, length (List.filter is_yield t)
                      <= length (List.filter is_reply_generator t)) as Hle.
    { induction t as [|[[] c] t IH]; simpl; try done.
      destruct c; simpl; lia. }
    specialize (Hle (trace_of
                       (_process_voice_message self event_ world voice s))).
    lia. }
  destruct (Hrg Hgen) as (Hdec & Hverdict).
  destruct (Hd1 Hdec) as (_ & Hchat & Hcan).
  assert (occurrences is_record_step
            (trace_of (_process_voice_message self event_ world voice s))
          = 1) as Hstep.
  { destruct (Nat.eq_dec
                (occurrences is_record_step
                   (trace_of
                      (_process_voice_message self event_ world voice s)))
                0) as [H0|H0]; [|lia].
    destruct (Hnone H0) as (_ & _ & _ & _ & Hd0 & _). lia. }
  repeat split; try done.
  destruct (Nat.eq_dec
              (occurrences is_stop_event
                 (trace_of
                    (_process_voice_message self event_ world voice s)))
              1) as [Hs|Hs]; [|lia].
  destruct (Hexcl Hs) as (_ & Hd0 & _). lia.
Qed.

(** X15.  The event is stopped exactly when a transcript was recorded,
    the message is a group message, group voice recognition is on, group
    voice reply is the value [False] itself and the permission service
    allows the voice.  Outside that mode (a private chat, recognition
    off, or a reply flag that is [None], [0] or anything but [False]) the
    gate does not even ask the permission service. *)
Theorem event_stopped_exactly_in_record_only_mode
    (voice : string) (s : service) :
  let t := trace_of (_process_voice_message self event_ world voice s) in
  (occurrences is_stop_event t = 1 <->
   occurrences is_record_step t = 1
   /\ group_record_only_mode self event_
   /\ gate_can_process_voice world = Ok true)
  /\ (~ group_record_only_mode self event_ ->
      occurrences is_gate_check t = 0 /\ occurrences is_stop_event t = 0).
Proof.
  cbv zeta.
  destruct (invocation_summary self event_ world voice s)
    as ((_ & _ & _ & _ & Hgate1 & Hstop1 & _) & _).
  destruct (invocation_calls self event_ world voice s)
    as (Hgate & Hstop & _).
  split; [done|]. intros Hmode. split.
  - destruct (Nat.eq_dec
                (occurrences is_gate_check
                   (trace_of
                      (_process_voice_message self event_ world voice s)))
                1) as [H1|H1]; [|lia].
    apply Hgate in H1. tauto.
  - destruct (Nat.eq_dec
                (occurrences is_stop_event
                   (trace_of
                      (_process_voice_message self event_ world voice s)))
                1) as [H1|H1]; [|lia].
    apply Hstop in H1. tauto.
Qed.

(** X16.  An invocation never changes the policy of the reply service
    (configuration, enabled flag, probability); it changes the session
    store only by the final sweep and, if it asks for a decision, by that
    decision, which concerns the session of the event alone. *)
Theorem invocation_changes_service_by_decision_and_sweep
    (voice : string) (s : service) :
  let run := _process_voice_message self event_ world voice s in
  config (state_of run) = config s
  /\ enabled (state_of run) = enabled s
  /\ reply_probability (state_of run) = reply_probability s
  /\ (occurrences is_decision (trace_of run) = 0 ->
      state_of run = service_after_cleanup world s)
  /\ (occurrences is_decision (trace_of run) = 1 ->
      state_of run
      = service_after_cleanup world (snd (pipeline_decision event_ world s)))
  /\ forall sid,
      sid <> unified_msg_origin event_ ->
      _last_decision_time (state_of run) !! sid
      = _last_decision_time (service_after_cleanup world s) !! sid.
Proof.
  cbv zeta.
  destruct (invocation_summary self event_ world voice s)
    as ((_ & _ & _ & _ & _ & _ & _ & Hdec & _) & _ & _ & _ & _ & _ & _ & _
        & _ & Hd0 & Hd1 & _).
  pose proof (should_generate_reply_frame s (unified_msg_origin event_)
                (random_random world) (decision_time world)) as Hframe.
  cbv zeta in Hframe. fold (pipeline_decision event_ world s) in Hframe.
  destruct Hframe as (Hf1 & Hf2 & Hf3 & Hf4).
  destruct (Nat.eq_dec
              (occurrences is_decision
                 (trace_of
                    (_process_voice_message self event_ world voice s)))
              0) as [H0|H0].
  - rewrite (Hd0 H0).
    destruct (service_after_cleanup_frame s s) as (Hc1 & Hc2 & Hc3 & _).
    repeat split; try done. intros; lia.
  - assert (occurrences is_decision
              (trace_of (_process_voice_message self event_ world voice s))
            = 1) as H1 by lia.
    destruct (Hd1 H1) as (Hstate & _). rewrite Hstate.
    destruct (service_after_cleanup_frame
                (snd (pipeline_decision event_ world s)) s)
      as (Hc1 & Hc2 & Hc3 & Hc4).
    repeat split; try congruence.
    intros sid Hsid. apply Hc4. by apply Hf4.
Qed.

(** X17.  After an invocation whose release of the temporary files did
    not raise, no session in the store is older than the default maximum
    age of 3600 seconds at the clock reading of the cleanup. *)
Theorem no_stale_session_after_invocation
    (voice : string) (s : service) (sid : string) (t : float) :
  cleanup_resources world = Ok tt ->
  _last_decision_time
    (state_of (_process_voice_message self event_ world voice s)) !! sid
  = Some t ->
  float_gt_int (cleanup_time world - t)%float 3600 = false.
Proof.
  intros Hrelease.
  destruct (process_voice_message_run self event_ world voice s)
    as (o & s1 & t1 & t2 & _ & _ & -> & _).
  unfold state_of. simpl. by apply service_after_cleanup_fresh.
Qed.

(** X18.  Without an LLM provider (the lookup answers none, or raises)
    the invocation fetches no conversation for a reply, builds no request
    and hands over no reply. *)
Theorem no_provider_no_request (voice : string) (s : service) :
  get_using_provider world <> Ok true ->
  let t := trace_of (_process_voice_message self event_ world voice s) in
  occurrences is_reply_conversation_lookup t = 0
  /\ occurrences is_request_llm t = 0
  /\ occurrences is_yield t = 0.
Proof.
  intros Hprov. cbv zeta.
  destruct (invocation_calls self event_ world voice s)
    as (_ & _ & _ & Hnone & _).
  destruct (Hnone Hprov) as (Hreq & Hyield & Hlookup). done.
Qed.

(** X19.  Every request to the LLM carries the fixed prefix followed by
    exactly the text the speech-to-text service returned, the current
    conversation id as session id, and the conversation fetched for that
    id, or [None] when there is no current id; every decision is asked
    for the session of the event. *)
Theorem llm_request_carries_transcript (voice : string) (s : service) :
  let t := trace_of (_process_voice_message self event_ world voice s) in
  (forall prompt cid conv,
      In (at_generate_intelligent_reply, RequestLlm prompt cid conv) t ->
      exists text,
        transcribe_audio world = Ok (Some text)
        /\ prompt = String.append "用户通过语音说了: " text
        /\ reply_get_curr_conversation_id world = Ok cid
        /\ (if truthy_str cid then reply_get_conversation world = Ok conv
            else conv = None))
  /\ (forall sid,
        In (at_process_voice_message, ShouldGenerateReply sid) t ->
        sid = unified_msg_origin event_).
Proof.
  cbv zeta.
  destruct (invocation_calls self event_ world voice s)
    as (_ & _ & _ & _ & Hreq & Hdec).
  done.
Qed.

End InvocationProperties.

Section OnMessageProperties.

Variable self : plugin.
Variable event_ : AstrMessageEvent.
Variable worlds : nat -> env.

Lemma never_try_finally (p : event -> bool) {A} (m : M A) (f : M unit) :
  never p m -> never p f -> never p (try_finally m f).
Proof.
  intros Hm Hf s. specialize (Hm s). unfold try_finally.
  destruct (m s) as [[r s1] t1].
  specialize (Hf s1). destruct (f s1) as [[[u|e] s2] t2].
  all: unfold trace_of in *; simpl in *; rewrite occurrences_app; lia.
Qed.

(** The pipeline does not ask the entry check of [on_message]. *)
Lemma process_voice_message_entry_check (world : env) (voice : string) :
  never is_entry_check (_process_voice_message self event_ world voice).
Proof.
  unfold _process_voice_message. apply never_try_finally; never_pipeline.
Qed.

Lemma on_message_loop_accounting (comps : list component) (i : nat)
    (s : service) r s' t :
  on_message_loop self event_ worlds i comps s = (r, s', t) ->
  occurrences is_entry_check t <= length (List.filter is_record comps)
  /\ occurrences is_pipeline_entry t <= occurrences is_entry_check t
  /\ (forall outs,
        r = Ok outs ->
        length outs = length (List.filter is_record comps)
        /\ occurrences is_entry_check t
           = length (List.filter is_record comps))
  /\ (forall e,
        r = Raise e ->
        exists k voice,
          comps !! k = Some (RecordComp voice)
          /\ entry_can_process_voice (worlds (i + k)) = Raise e).
Proof.
  revert i s r s' t.
  induction comps as [|[voice|] comps IH]; intros i s r s' t.
  - intros [= <- <- <-]. split; [done|]. split; [done|].
    split; [by intros outs [= <-]|done].
  - cbn [on_message_loop]. unfold bind, invoke, ret.
    pose proof (process_voice_message_entry_check (worlds i) voice s)
      as Hcheck.
    destruct (process_voice_message_run self event_ (worlds i) voice s)
      as (o & s1 & t1 & t2 & _ & _ & Hrun & _ & _ & He1 & _ & _ & He2).
    rewrite Hrun in Hcheck. unfold trace_of in Hcheck. simpl in Hcheck.
    rewrite occurrences_app in Hcheck.
    destruct (entry_can_process_voice (worlds i)) as [[|]|e] eqn:Hentry.
    3: { intros [= <- <- <-].
         rewrite !occurrences_cons, !occurrences_nil. simpl.
         split; [lia|]. split; [lia|]. split; [done|].
         intros e' [= <-]. exists 0, voice. split; [done|].
         by replace (i + 0) with i by lia. }
    1: rewrite Hrun.
    all: destruct (on_message_loop self event_ worlds (S i) comps _)
        as [[[os|e] s2] t3] eqn:Hrest;
      destruct (IH _ _ _ _ _ Hrest) as (IH1 & IH2 & IH3 & IH4);
      intros [= <- <- <-];
      repeat (rewrite ?occurrences_cons, ?occurrences_app, ?occurrences_nil;
              simpl).
    1,3: destruct (IH3 os eq_refl) as [Hlen Hcount];
      (split; [lia|]); (split; [lia|]);
      (split; [intros outs [= <-]; simpl; lia|done]).
    all: (split; [lia|]); (split; [lia|]); (split; [done|]);
      intros e' [= <-]; destruct (IH4 e eq_refl) as (k & v & Hk & Hraise);
      exists (S k), v; (split; [done|]);
      by replace (i + S k) with (S i + k) by lia.
  - cbn [on_message_loop]. intros Hrun.
    destruct (IH _ _ _ _ _ Hrun) as (IH1 & IH2 & IH3 & IH4).
    simpl. split; [done|]. split; [done|]. split; [done|].
    intros e He. destruct (IH4 e He) as (k & v & Hk & Hraise).
    exists (S k), v. split; [done|].
    by replace (i + S k) with (S i + k) by lia.
Qed.

(** X20.  A message without a voice component makes [on_message] do
    nothing: no permission check, no call of any collaborator, no
    result, and the reply service as it was. *)
Theorem on_message_ignores_other_messages (s : service) :
  List.filter is_record (get_messages event_) = [] ->
  on_message self event_ worlds s = (Ok [], s, []).
Proof.
  unfold on_message. generalize 0.
  induction (get_messages event_) as [|[voice|] comps IH]; intros i Hnone.
  - done.
  - done.
  - cbn [on_message_loop]. by apply IH.
Qed.

(** X21.  [on_message] asks the permission service at most once per voice
    component and enters the pipeline only after such a check.  When it
    returns, every voice component was checked and has its own result;
    when it raises, the exception is one raised by the permission check
    of a voice component: nothing raised inside the pipeline escapes. *)
Theorem on_message_checks_each_voice (s : service) :
  let run := on_message self event_ worlds s in
  let voices := length (List.filter is_record (get_messages event_)) in
  occurrences is_entry_check (trace_of run) <= voices
  /\ occurrences is_pipeline_entry (trace_of run)
     <= occurrences is_entry_check (trace_of run)
  /\ (forall outs,
        result_of run = Ok outs ->
        length outs = voices
        /\ occurrences is_entry_check (trace_of run) = voices)
  /\ (forall e,
        result_of run = Raise e ->
        exists k voice,
          get_messages event_ !! k = Some (RecordComp voice)
          /\ entry_can_process_voice (worlds k) = Raise e).
Proof.
  cbv zeta. unfold on_message.
  destruct (on_message_loop self event_ worlds 0 (get_messages event_) s)
    as [[r s'] t] eqn:Hrun.
  apply on_message_loop_accounting in Hrun. exact Hrun.
Qed.

End OnMessageProperties.

Section Terminate.

Variable world : env.

(** X22.  [terminate] never raises: it releases the temporary files
    once, sweeps the session store unless that release raised, and
    changes nothing else; after a release that did not raise no session
    is older than 3600 seconds. *)
Theorem terminate_never_raises (s : service) :
  result_of (terminate world s) = Ok tt
  /\ state_of (terminate world s) = service_after_cleanup world s
  /\ occurrences is_cleanup (trace_of (terminate world s)) = 1
  /\ occurrences is_sweep (trace_of (terminate world s))
     = match cleanup_resources world with Ok _ => 1 | Raise _ => 0 end
  /\ occurrences is_pipeline_entry (trace_of (terminate world s)) = 0
  /\ (cleanup_resources world = Ok tt ->
      forall sid t,
        _last_decision_time (state_of (terminate world s)) !! sid = Some t ->
        float_gt_int (cleanup_time world - t)%float 3600 = false).
Proof.
  destruct (cleanup_resources_run world s) as (t & Hrun & Hc & Hs).
  assert (never is_pipeline_entry (_cleanup_resources world)) as Hpe
    by never_pipeline.
  specialize (Hpe s). rewrite Hrun in Hpe.
  unfold terminate, try_except. rewrite Hrun.
  unfold result_of, state_of, trace_of in *. simpl in *.
  repeat split; try done.
  intros Hrelease sid t0. by apply service_after_cleanup_fresh.
Qed.

End Terminate.

Section PolicyOff.

Variable self : plugin.
Variable event_ : AstrMessageEvent.
Variable world : env.

(** X23.  While the probabilistic policy is off, an invocation never
    skips a reply for the sake of the draw: every decision it asks for is
    a yes, and the session store is changed by the final sweep only. *)
Theorem policy_off_never_skips_reply (voice : string) (s : service) :
  truthy (enabled s) = false ->
  let run := _process_voice_message self event_ world voice s in
  state_of run = service_after_cleanup world s
  /\ (occurrences is_decision (trace_of run) = 1 ->
      fst (pipeline_decision event_ world s) = true)
  /\ result_of run <> Ok reply_skipped.
Proof.
  intros Hoff. cbv zeta.
  assert (pipeline_decision event_ world s = (true, s)) as Hdecision.
  { unfold pipeline_decision, should_generate_reply. by rewrite Hoff. }
  destruct (invocation_summary self event_ world voice s)
    as ((_ & _ & _ & _ & _ & _ & _ & Hdec & _) & _ & _ & _ & _ & _ & Hskip
        & _ & _ & Hd0 & Hd1 & _).
  repeat split.
  - destruct (Nat.eq_dec
                (occurrences is_decision
                   (trace_of
                      (_process_voice_message self event_ world voice s)))
                0) as [H0|H0].
    + by apply Hd0.
    + assert (occurrences is_decision
                (trace_of
                   (_process_voice_message self event_ world voice s))
              = 1) as H1 by lia.
      destruct (Hd1 H1) as (Hstate & _). rewrite Hstate.
      by rewrite Hdecision.
  - intros _. by rewrite Hdecision.
  - intros Hres. apply Hskip in Hres as (_ & Hno).
    rewrite Hdecision in Hno. done.
Qed.

End PolicyOff.

Section PluginConstruction.

Variable float_of_str : string -> result float.
Variable c : PluginSetup.collaborators.

(** X24.  The construction of the plugin fails in one of three ways
    only: with what [PluginConfig.create_default] raised; with
    [AttributeError] when the [Chat_Reply] or [Output_Settings] section
    is no dictionary; with [VoiceToTextError] when the construction of
    one of the four services raised, whatever that exception was (the
    [ValueError] of a [Reply_Probability] that is no number, for one). *)
Theorem plugin_construction_errors
    (cfg : option (gmap string pyval)) (e : exn) :
  PluginSetup.__init__ float_of_str c cfg = Raise e ->
  PluginSetup.create_default c = Raise e
  \/ (e = AttributeError
      /\ exists key section,
          (key = "Chat_Reply" \/ key = "Output_Settings")
          /\ default ∅ cfg !! key = Some section
          /\ forall d, section <> VDict d)
  \/ (e = VoiceToTextError
      /\ exists cause,
          PluginSetup.initialize_services_try float_of_str c
            (default ∅ cfg) = Raise cause).
Proof.
  unfold PluginSetup.__init__, PluginSetup._initialize_services,
    PluginSetup.section_get.
  cbv zeta.
  destruct (PluginSetup.create_default c) as [[]|e0]; [|intros [= <-]; by left].
  destruct (default ∅ cfg !! "Chat_Reply") as [chat|] eqn:Hchat; simpl.
  1: destruct chat; try (intros [= <-]; right; left; split; [done|];
       eexists _, _; split; [by left|]; split; [exact Hchat|]; done).
  all: destruct (default ∅ cfg !! "Output_Settings") as [out|] eqn:Hout;
    simpl.
  1,3: destruct out; try (intros [= <-]; right; left; split; [done|];
       eexists _, _; split; [by right|]; split; [exact Hout|]; done).
  all: destruct (PluginSetup.initialize_services_try _ _ _)
         as [[flags svc]|cause]; [done|].
  all: intros [= <-]; right; right; split; [done|]; by exists cause.
Qed.

(** X25.  A plugin constructed from a configuration without the
    [Chat_Reply] and [Output_Settings] sections (no configuration at all,
    for one) has chat reply and console output on, and a reply service
    with the policy off, the probability 0.3 and no session; whatever the
    configuration, a constructed plugin starts without sessions and with
    a probability between 0 and 1. *)
Theorem plugin_construction_defaults
    (cfg : option (gmap string pyval)) (p : PluginSetup.plugin_object) :
  PluginSetup.__init__ float_of_str c cfg = Ok p ->
  _last_decision_time (PluginSetup.probabilistic_reply_service p) = ∅
  /\ in_unit_interval
       (reply_probability (PluginSetup.probabilistic_reply_service p))
  /\ config (PluginSetup.probabilistic_reply_service p) = default ∅ cfg
  /\ (default ∅ cfg !! "Output_Settings" = None ->
      console_output (PluginSetup.attributes p) = VBool true)
  /\ (default ∅ cfg !! "Chat_Reply" = None ->
      enable_chat_reply (PluginSetup.attributes p) = VBool true
      /\ enabled (PluginSetup.probabilistic_reply_service p) = VBool false
      /\ reply_probability (PluginSetup.probabilistic_reply_service p)
         = 0.3%float).
Proof.
  unfold PluginSetup.__init__, PluginSetup._initialize_services,
    PluginSetup.initialize_services_try, PluginSetup.section_get.
  cbv zeta.
  destruct (PluginSetup.create_default c) as [[]|e0]; [|done].
  destruct (default (VDict ∅) (default ∅ cfg !! "Chat_Reply"))
    as [| | | | | |chat] eqn:Hchat; try done.
  destruct (default (VDict ∅) (default ∅ cfg !! "Output_Settings"))
    as [| | | | | |out] eqn:Hout; try done.
  destruct (PluginSetup.new_permission_service c _) as [flags|e1]; [|done].
  destruct (PluginSetup.new_voice_processing_service c) as [[]|e2]; [|done].
  destruct (PluginSetup.new_stt_service c _) as [[]|e3]; [|done].
  destruct (ProbabilisticReplyService.__init__ float_of_str (default ∅ cfg))
    as [svc|e4] eqn:Hinit; [|done].
  intros [= <-]. simpl.
  pose proof (init_range float_of_str _ _ Hinit) as Hrange.
  unfold ProbabilisticReplyService.__init__, _load_config in Hinit.
  simpl in Hinit. rewrite Hchat in Hinit.
  destruct (py_float float_of_str _) as [prob|e5] eqn:Hprob; [|done].
  injection Hinit as <-. simpl.
  split; [done|]. split; [done|]. split; [done|]. split.
  - intros Hnone. rewrite Hnone in Hout. simpl in Hout.
    by injection Hout as <-.
  - intros Hnone. rewrite Hnone in Hchat. simpl in Hchat.
    injection Hchat as <-. rewrite lookup_empty in Hprob. simpl in Hprob.
    injection Hprob as <-. done.
Qed.

End PluginConstruction.

Section PropertyInstances.
Import Examples.

(** X1 at the probabilities 0.3 and 0.5 and the draws 0.25 and 0.1. *)
Lemma reply_monotone_in_probability_witness :
  fst (should_generate_reply (enabled_service 0.5) (Some "s1") 0.1 200)
  = true.
Proof.
  apply (reply_monotone_in_probability (enabled_service 0.3)
           (enabled_service 0.5) None (Some "s1") 0.25 0.1 100 200);
    reflexivity.
Defined.

(** X7 at the ages of one minute and one hour: a session seen half a
    minute ago survives both. *)
Lemma cleanup_old_sessions_monotone_in_age_witness :
  _last_decision_time (snd (fst (cleanup_old_sessions seen_service 60 130)))
  !! "s1" = Some 100%float
  /\ _last_decision_time
       (snd (fst (cleanup_old_sessions seen_service 3600 130)))
     !! "s1" = Some 100%float.
Proof.
  assert (_last_decision_time
            (snd (fst (cleanup_old_sessions seen_service 60 130)))
          !! "s1" = Some 100%float) as Hshort by (vm_compute; reflexivity).
  split; [exact Hshort|].
  eapply lookup_weaken; [exact Hshort|].
  apply (cleanup_old_sessions_monotone_in_age seen_service 60 3600 130).
  lia.
Defined.

(** X12 at a voice file that cannot be prepared. *)
Lemma missing_file_ends_invocation_witness :
  file_yields_nothing file_down_world
  /\ result_of
       (_process_voice_message replying_plugin private_event file_down_world
          "v.amr" disabled_service) = Ok file_error
  /\ occurrences is_transcription
       (trace_of
          (_process_voice_message replying_plugin private_event
             file_down_world "v.amr" disabled_service)) = 0.
Proof.
  assert (file_yields_nothing file_down_world) as Hfile by reflexivity.
  split; [exact Hfile|].
  destruct (missing_file_ends_invocation replying_plugin private_event
              file_down_world "v.amr" disabled_service Hfile)
    as (Hres & _ & Htr & _).
  split; [exact Hres|exact Htr].
Defined.

(** X14 at a private chat in which every collaborator answers. *)
Lemma reply_needs_record_and_decision_witness :
  occurrences is_yield
    (trace_of
       (_process_voice_message replying_plugin private_event fair_world
          "v.amr" disabled_service)) = 1
  /\ occurrences is_record_step
       (trace_of
          (_process_voice_message replying_plugin private_event fair_world
             "v.amr" disabled_service)) = 1
  /\ occurrences is_stop_event
       (trace_of
          (_process_voice_message replying_plugin private_event fair_world
             "v.amr" disabled_service)) = 0.
Proof.
  assert (occurrences is_yield
            (trace_of
               (_process_voice_message replying_plugin private_event
                  fair_world "v.amr" disabled_service)) = 1) as Hyield
    by reflexivity.
  split; [exact Hyield|].
  destruct (reply_needs_record_and_decision replying_plugin private_event
              fair_world "v.amr" disabled_service Hyield)
    as (Hrec & _ & _ & _ & _ & _ & _ & _ & Hstop).
  split; [exact Hrec|exact Hstop].
Defined.

(** X17 at a service that saw a session long ago: the session of the
    invocation is the one left. *)
Lemma no_stale_session_after_invocation_witness :
  _last_decision_time
    (state_of
       (_process_voice_message replying_plugin private_event fair_world
          "v.amr" seen_service)) !! "aiocqhttp:FriendMessage:42"
  = Some 1700000000%float
  /\ float_gt_int (cleanup_time fair_world - 1700000000)%float 3600 = false.
Proof.
  assert (_last_decision_time
            (state_of
               (_process_voice_message replying_plugin private_event
                  fair_world "v.amr" seen_service))
          !! "aiocqhttp:FriendMessage:42" = Some 1700000000%float) as Hlookup
    by (vm_compute; reflexivity).
  split; [exact Hlookup|].
  apply (no_stale_session_after_invocation replying_plugin private_event
           fair_world "v.amr" seen_service "aiocqhttp:FriendMessage:42");
    [reflexivity|exact Hlookup].
Defined.

(** X18 at a framework without LLM provider. *)
Lemma no_provider_no_request_witness :
  occurrences is_request_llm
    (trace_of
       (_process_voice_message replying_plugin private_event
          no_provider_world "v.amr" disabled_service)) = 0
  /\ occurrences is_yield
       (trace_of
          (_process_voice_message replying_plugin private_event
             no_provider_world "v.amr" disabled_service)) = 0.
Proof.
  destruct (no_provider_no_request replying_plugin private_event
              no_provider_world) with (voice := "v.amr")
                                      (s := disabled_service)
    as (_ & Hreq & Hyield).
  - discriminate.
  - split; [exact Hreq|exact Hyield].
Defined.

(** X20 at a message of two components, neither a voice. *)
Lemma on_message_ignores_other_messages_witness :
  on_message replying_plugin text_event (fun _ => fair_world) seen_service
  = (Ok [], seen_service, []).
Proof.
  apply (on_message_ignores_other_messages replying_plugin text_event
           (fun _ => fair_world) seen_service).
  reflexivity.
Defined.

(** X23 at the service of the default configuration. *)
Lemma policy_off_never_skips_reply_witness :
  state_of
    (_process_voice_message replying_plugin private_event fair_world
       "v.amr" disabled_service)
  = service_after_cleanup fair_world disabled_service
  /\ result_of
       (_process_voice_message replying_plugin private_event fair_world
          "v.amr" disabled_service) <> Ok reply_skipped.
Proof.
  destruct (policy_off_never_skips_reply replying_plugin private_event
              fair_world "v.amr" disabled_service)
    as (Hstate & _ & Hres).
  - reflexivity.
  - split; [exact Hstate|exact Hres].
Defined.

(** X24 at a [Reply_Probability] that is no number. *)
Lemma plugin_construction_errors_witness :
  PluginSetup.__init__ no_float_of_str fair_collaborators
    (Some (config_with_probability (VStr "often")))
  = Raise VoiceToTextError
  /\ (PluginSetup.create_default fair_collaborators = Raise VoiceToTextError
      \/ (VoiceToTextError = AttributeError
          /\ exists key section,
              (key = "Chat_Reply" \/ key = "Output_Settings")
              /\ config_with_probability (VStr "often") !! key = Some section
              /\ forall d, section <> VDict d)
      \/ (VoiceToTextError = VoiceToTextError
          /\ exists cause,
              PluginSetup.initialize_services_try no_float_of_str
                fair_collaborators (config_with_probability (VStr "often"))
              = Raise cause)).
Proof.
  split; [reflexivity|].
  apply (plugin_construction_errors no_float_of_str fair_collaborators
           (Some (config_with_probability (VStr "often"))) VoiceToTextError).
  reflexivity.
Defined.

(** X25 at a plugin constructed without configuration. *)
Lemma plugin_construction_defaults_witness :
  PluginSetup.__init__ no_float_of_str fair_collaborators None
  = Ok (PluginSetup.mk_plugin_object record_only_plugin disabled_service)
  /\ enable_chat_reply record_only_plugin = VBool true
  /\ enabled disabled_service = VBool false
  /\ reply_probability disabled_service = 0.3%float.
Proof.
  assert (PluginSetup.__init__ no_float_of_str fair_collaborators None
          = Ok (PluginSetup.mk_plugin_object record_only_plugin
                  disabled_service)) as Hinit by reflexivity.
  split; [exact Hinit|].
  destruct (plugin_construction_defaults no_float_of_str fair_collaborators
              None _ Hinit) as (_ & _ & _ & _ & Hchat).
  apply Hchat. reflexivity.
Defined.

End PropertyInstances.
